(** * Data Lake with Spark and AWS S3: the ETL notebook [dlake-project.ipynb]

    A shallow embedding of the notebook's two jobs, [process_song_data] and
    [process_log_data], and of the Spark operations they call.

    Modelling conventions.
    - A DataFrame is the list of its rows, in the (arbitrary but fixed) order
      in which Spark holds them; a nullable column is an [option].
    - A DataFrame that carries a Python UDF column is lazy: the UDF runs, and
      may raise, only when an action ([write...parquet]) executes the plan.
      Such a frame is a [result (list _)].
    - The object store holding the output is a finite map from paths to
      written datasets; a job threads it and may raise. *)

From Stdlib Require Import ZArith.
From stdpp Require Import base decidable option strings list gmap fin_maps.

(** ** Column values *)

(** A [DoubleType] cell: the 64-bit pattern of the value. Only equality of
    cells is ever used (by [distinct]). *)
Definition Dbl := Z.

(** What [distinct] makes of a double before it compares and emits rows:
    -0.0 (pattern 0x8000000000000000) becomes 0.0, and every NaN (exponent
    all ones, mantissa not zero, either sign) becomes the one NaN
    0x7ff8000000000000. *)
Definition normalize_double (d : Dbl) : Dbl :=
  if bool_decide (d = 0x8000000000000000)%Z then 0%Z
  else if bool_decide (0x7ff0000000000000 < d `mod` 0x8000000000000000)%Z
       then 0x7ff8000000000000%Z
  else d.

(** The [ts] column of the log frame. The log schema is inferred from the
    JSON, so the column holds longs when every record carries a JSON integer
    and strings otherwise. *)
Inductive TsValue :=
  | TsLong (n : Z)
  | TsString (s : string).

Global Instance TsValue_eq_dec : EqDecision TsValue.
Proof. solve_decision. Defined.

(** ** Calendar arithmetic on day numbers (days since 1970-01-01) *)

Module Calendar.
Local Open Scope Z_scope.

(** Proleptic Gregorian (year, month, day) of a day number. *)
Definition civil_from_days (z : Z) : Z * Z * Z :=
  let z := z + 719468 in
  let era := z `div` 146097 in
  let doe := z - era * 146097 in
  let yoe := (doe - doe `div` 1460 + doe `div` 36524 - doe `div` 146096) `div` 365 in
  let y := yoe + era * 400 in
  let doy := doe - (365 * yoe + yoe `div` 4 - yoe `div` 100) in
  let mp := (5 * doy + 2) `div` 153 in
  let d := doy - (153 * mp + 2) `div` 5 + 1 in
  let m := if bool_decide (mp < 10) then mp + 3 else mp - 9 in
  (if bool_decide (m <= 2) then y + 1 else y, m, d).

Definition days_from_civil (y m d : Z) : Z :=
  let y := if bool_decide (m <= 2) then y - 1 else y in
  let era := y `div` 400 in
  let yoe := y - era * 400 in
  let doy := (153 * (if bool_decide (2 < m) then m - 3 else m + 9) + 2) `div` 5 + d - 1 in
  let doe := yoe * 365 + yoe `div` 4 - yoe `div` 100 + doy in
  era * 146097 + doe - 719468.

(** [pyspark.sql.functions.year], [month], [dayofmonth] of a date. *)
Definition year (d : Z) : Z := (civil_from_days d).1.1.
Definition month (d : Z) : Z := (civil_from_days d).1.2.
Definition dayofmonth (d : Z) : Z := (civil_from_days d).2.

(** [dayofweek]: 1 is Sunday, 7 is Saturday; day 0 was a Thursday. *)
Definition dayofweek (d : Z) : Z := (d + 4) `mod` 7 + 1.

(** [weekofyear]: the ISO 8601 week, the week of the Thursday of the
    Monday-based week that holds the date. *)
Definition weekofyear (d : Z) : Z :=
  let thursday := d - ((d + 3) `mod` 7 + 1) + 4 in
  (thursday - days_from_civil (year thursday) 1 1) `div` 7 + 1.

(** [hour] of a [DateType] column: the date is cast to the timestamp of
    its midnight in the session time zone, whose hour is 0 (a zone whose
    clock change skips midnight is not modelled). *)
Definition hour (d : Z) : Z := 0.
End Calendar.

(** ** Row types *)

(** A row of the frame read with [song_schema()], fields in schema order. *)
Module Song.
Record t := mk {
  num_songs : option Z;
  artist_id : option string;
  artist_latitude : option Dbl;
  artist_longitude : option Dbl;
  artist_location : option string;
  artist_name : option string;
  song_id : option string;
  title : option string;
  duration : option Dbl;
  year : option Z
}.
Global Instance eq_dec : EqDecision t.
Proof. solve_decision. Defined.
End Song.

(** A row of [songs_table]. *)
Module Songs.
Record t := mk {
  song_id : option string;
  title : option string;
  artist_id : option string;
  year : option Z;
  duration : option Dbl
}.
Global Instance eq_dec : EqDecision t.
Proof. solve_decision. Defined.
End Songs.

(** A row of [artists_table]. *)
Module Artists.
Record t := mk {
  artist_id : option string;
  artist_name : option string;
  artist_location : option string;
  artist_latitude : option Dbl;
  artist_longitude : option Dbl
}.
Global Instance eq_dec : EqDecision t.
Proof. solve_decision. Defined.
End Artists.

(** A row of the log frame: the columns of the inferred schema that the
    notebook reads. [sessionId] is the column the notebook names
    [sessionID]; Spark resolves column names without regard to case. *)
Module Log.
Record t := mk {
  artist : option string;
  firstName : option string;
  gender : option string;
  lastName : option string;
  level : option string;
  location : option string;
  page : option string;
  sessionId : option Z;
  song : option string;
  ts : option TsValue;
  userAgent : option string;
  userId : option string
}.
Global Instance eq_dec : EqDecision t.
Proof. solve_decision. Defined.
End Log.

(** A row of [users_table]. *)
Module Users.
Record t := mk {
  userId : option string;
  firstName : option string;
  lastName : option string;
  gender : option string;
  level : option string
}.
Global Instance eq_dec : EqDecision t.
Proof. solve_decision. Defined.
End Users.

(** A log row extended by the two [withColumn] calls. [start_time] is the
    naive local datetime the UDF returns, in microseconds of wall-clock time
    since 1970-01-01T00:00; [datetime] is its calendar date as a day
    number, which is what a UDF declared with [Date()] stores. *)
Module Event.
Record t := mk {
  row : Log.t;
  start_time : Z;
  datetime : Z
}.
Global Instance eq_dec : EqDecision t.
Proof. solve_decision. Defined.
End Event.

(** A row of [time_table]. *)
Module Time.
Record t := mk {
  ts : option TsValue;
  start_time : Z;
  datetime : Z;
  hour : Z;
  day : Z;
  week : Z;
  year : Z;
  month : Z;
  weekday : Z
}.
Global Instance eq_dec : EqDecision t.
Proof. solve_decision. Defined.
End Time.

(** A row of [songplays_table]. *)
Module Songplays.
Record t := mk {
  start_time : Z;
  year : Z;
  month : Z;
  userId : option string;
  level : option string;
  song_id : option string;
  artist_id : option string;
  sessionID : option Z;
  location : option string;
  userAgent : option string
}.
Global Instance eq_dec : EqDecision t.
Proof. solve_decision. Defined.
End Songplays.

(** ** Exceptions, lazy frames and jobs *)

Inductive Exn :=
  | AnalysisException (path : string)  (* the output path already exists *)
  | PythonException.                   (* a Python UDF raised inside a task *)

Inductive result (A : Type) :=
  | Ok (a : A)
  | Raise (e : Exn).
Arguments Ok {A} a.
Arguments Raise {A} e.

Global Instance result_fmap : FMap result := λ A B f r,
  match r with Ok a => Ok (f a) | Raise e => Raise e end.

(** The outcome of running a UDF over a frame: [None] is a raised
    exception, which fails the Spark job. *)
Definition run_udf {A} (o : option A) : result A :=
  match o with Some a => Ok a | None => Raise PythonException end.

Inductive Row :=
  | RSongs (r : Songs.t)
  | RArtists (r : Artists.t)
  | RUsers (r : Users.t)
  | RTime (r : Time.t)
  | RSongplays (r : Songplays.t).

(** What a [parquet] write leaves under a path. *)
Record Dataset := mkDataset {
  partition : list string;
  rows : list Row
}.

Abbreviation Store := (gmap string Dataset).

(** A job runs against the object store; it returns normally or raises,
    and in both cases leaves a store behind. *)
Definition Job (A : Type) : Type := Store → result A * Store.

Definition ret {A} (a : A) : Job A := λ st, (Ok a, st).

Definition bind {A B} (m : Job A) (k : A → Job B) : Job B := λ st,
  match m st with
  | (Ok a, st') => k a st'
  | (Raise e, st') => (Raise e, st')
  end.

Notation "m1 ;;; m2" := (bind m1 (λ _, m2))
  (at level 100, m2 at level 200, right associativity).

(** ** The Spark operations the notebook calls *)

(** [a == b] on columns: SQL equality, which is not true when either side
    is null. *)
Definition sql_eq `{EqDecision A} (a b : option A) : bool :=
  match a, b with
  | Some x, Some y => bool_decide (x = y)
  | _, _ => false
  end.

(** [col(c).isNotNull()] *)
Definition isNotNull {A} (a : option A) : bool :=
  match a with Some _ => true | None => false end.

(** [df.distinct()] and [df.dropDuplicates()] without a subset. *)
Definition distinct `{EqDecision A} (df : list A) : list A := remove_dups df.

(** [df.where(c)] and [df.filter(c)] keep the rows on which [c] is true. *)
Definition where_ {A} (c : A → bool) (df : list A) : list A :=
  filter (λ r, c r = true) df.

(** [df.drop_duplicates(subset=[k])]: one row is kept for each value of
    the column [k]; the first in the frame's order stands for it. *)
Fixpoint drop_duplicates `{EqDecision K} {A} (k : A → K) (df : list A) : list A :=
  match df with
  | [] => []
  | r :: df' => r :: filter (λ r', k r' ≠ k r) (drop_duplicates k df')
  end.

(** [left.join(right, on)]: the inner join, pairs on which [on] is true. *)
Definition join {A B} (on : A → B → bool) (left : list A) (right : list B)
    : list (A * B) :=
  a ← left; b ← right; if on a b then [(a, b)] else [].

Inductive SaveMode := Append | Overwrite | ErrorIfExists | Ignore.

(** [df.write]: a writer over the frame's plan. Spark's default save mode
    is [ErrorIfExists]; the notebook never calls [.mode(...)]. *)
Record DataFrameWriter := mkWriter {
  w_plan : result (list Row);
  w_mode : SaveMode;
  w_partitionBy : list string
}.

Definition write (plan : result (list Row)) : DataFrameWriter :=
  {| w_plan := plan; w_mode := ErrorIfExists; w_partitionBy := [] |}.

Definition partitionBy (cols : list string) (w : DataFrameWriter) : DataFrameWriter :=
  {| w_plan := w_plan w; w_mode := w_mode w; w_partitionBy := cols |}.

(** [writer.mode(m)]; the notebook has no call of it. *)
Definition mode (m : SaveMode) (w : DataFrameWriter) : DataFrameWriter :=
  {| w_plan := w_plan w; w_mode := m; w_partitionBy := w_partitionBy w |}.

(** [writer.parquet(path)]. The save mode is resolved against the path
    before the plan runs; a plan that raises writes nothing. Spark versions
    differ in which of the two comes first. The orders can be told apart
    only when the path exists and the plan raises as well, by the exception
    of that run; the properties of the notebook below do not say which one
    it is. *)
Definition parquet (w : DataFrameWriter) (path : string) : Job () := λ st,
  match st !! path, w_mode w with
  | Some _, ErrorIfExists => (Raise (AnalysisException path), st)
  | Some _, Ignore => (Ok (), st)
  | old, mode =>
      match w_plan w with
      | Raise e => (Raise e, st)
      | Ok new =>
          let kept :=
            match old, mode with
            | Some d, Append => rows d
            | _, _ => []
            end in
          (Ok (), <[path := mkDataset (w_partitionBy w) (kept ++ new)]> st)
      end
  end.

(** The data a session reads: [spark.read.json(path, schema=song_schema())]
    and [spark.read.json(path)] on the log files. These are the frames of
    reads that succeed, on a log whose inferred schema has the columns the
    notebook uses. A source that is missing makes the read raise, and a log
    without records has no columns, so that [df.page] raises; those runs
    are outside the model. *)
Record SparkSession := mkSpark {
  read_json_songs : string → list Song.t;
  read_json_logs : string → list Log.t
}.

(** ** The notebook *)

Section Notebook.
(** Python's [int] on a string: [None] when it raises [ValueError]. *)
Variable int_of_str : string → option Z.

(** The platform's [localtime]: the wall-clock second, counted from
    1970-01-01T00:00 local time, shown in the system time zone at a POSIX
    second; [None] when the platform cannot represent it, in which case
    [datetime.fromtimestamp] raises. *)
Variable localtime : Z → option Z.

(** [int(x)] on a cell of the [ts] column; [int(None)] raises
    [TypeError]. *)
Definition py_int (x : option TsValue) : option Z :=
  match x with
  | None => None
  | Some (TsLong n) => Some n
  | Some (TsString s) => int_of_str s
  end.

(** [datetime.fromtimestamp], on a time given in microseconds (the
    resolution of [datetime]). *)
Definition fromtimestamp (us : Z) : option Z :=
  w ← localtime (us `div` 1000000)%Z; Some (w * 1000000 + us `mod` 1000000)%Z.

(** [format_datetime(ts)] is [datetime.fromtimestamp(ts/1000.0)]:
    [ts] milliseconds are [ts * 1000] microseconds. The float quotient
    is taken as exact, which it is to the microsecond while
    [0 <= ts < 2^32 * 1000]. *)
Definition format_datetime (ts : Z) : option Z :=
  fromtimestamp (ts * 1000)%Z.

(** [get_timestamp = udf(lambda x: format_datetime(int(x)), Ts())] *)
Definition get_timestamp (x : option TsValue) : option Z :=
  n ← py_int x; format_datetime n.

(** [get_datetime = udf(lambda x: format_datetime(int(x)), Date())]:
    a [DateType] result keeps the day number of the datetime. *)
Definition get_datetime (x : option TsValue) : option Z :=
  n ← py_int x; d ← format_datetime n; Some (d `div` 86400000000)%Z.

(** The two [withColumn] calls of [process_log_data] on one row: they
    add [start_time] and [datetime]. *)
Definition withColumns_row (r : Log.t) : option Event.t :=
  start_time ← get_timestamp (Log.ts r);
  datetime ← get_datetime (Log.ts r);
  Some (Event.mk r start_time datetime).

Definition withColumns (df : list Log.t) : result (list Event.t) :=
  run_udf (mapM withColumns_row df).

(** [df.select(['song_id', 'title', 'artist_id', 'year', 'duration'])] *)
Definition select_songs (r : Song.t) : Songs.t :=
  Songs.mk (Song.song_id r) (Song.title r) (Song.artist_id r)
           (Song.year r) (Song.duration r).

(** The row [distinct()] emits for a row of the Songs projection: its
    [duration], the one double, is normalised. *)
Definition normalize_songs (r : Songs.t) : Songs.t :=
  Songs.mk (Songs.song_id r) (Songs.title r) (Songs.artist_id r) (Songs.year r)
           (normalize_double <$> Songs.duration r).

Definition songs_table (df : list Song.t) : list Songs.t :=
  where_ (λ r, isNotNull (Songs.song_id r))
    (distinct (normalize_songs ∘ select_songs <$> df)).

(** [df.select(['artist_id', 'artist_name', 'artist_location',
    'artist_latitude', 'artist_longitude'])] *)
Definition select_artists (r : Song.t) : Artists.t :=
  Artists.mk (Song.artist_id r) (Song.artist_name r) (Song.artist_location r)
             (Song.artist_latitude r) (Song.artist_longitude r).

(** The row [distinct()] emits for a row of the Artists projection:
    latitude and longitude are normalised. *)
Definition normalize_artists (r : Artists.t) : Artists.t :=
  Artists.mk (Artists.artist_id r) (Artists.artist_name r)
             (Artists.artist_location r)
             (normalize_double <$> Artists.artist_latitude r)
             (normalize_double <$> Artists.artist_longitude r).

Definition artists_table (df : list Song.t) : list Artists.t :=
  where_ (λ r, isNotNull (Artists.artist_id r))
    (distinct (normalize_artists ∘ select_artists <$> df)).

Definition process_song_data (spark : SparkSession) (input_data output_data : string)
    : Job () :=
  let song_data := input_data +:+ "song_data/*/*/*/*.json" in
  let df := read_json_songs spark song_data in
  let songs_path := output_data +:+ "songs" in
  parquet (partitionBy ["year"; "artist_id"]
             (write (Ok (RSongs <$> songs_table df)))) songs_path ;;;
  let artists_path := output_data +:+ "artists" in
  parquet (write (Ok (RArtists <$> artists_table df))) artists_path.

(** [df.filter(df.page == 'NextSong')] *)
Definition filter_NextSong (df : list Log.t) : list Log.t :=
  where_ (λ r, sql_eq (Log.page r) (Some "NextSong")) df.

(** [df.select(['userId', 'firstName', 'lastName', 'gender', 'level'])] *)
Definition select_users (r : Log.t) : Users.t :=
  Users.mk (Log.userId r) (Log.firstName r) (Log.lastName r)
           (Log.gender r) (Log.level r).

Definition users_table (df : list Log.t) : list Users.t :=
  where_ (λ r, isNotNull (Users.userId r)) (distinct (select_users <$> df)).

(** The [select] of [time_table]: [ts], [start_time], [datetime] and the
    six calendar columns, all taken from the [datetime] column. *)
Definition select_time (r : Event.t) : Time.t :=
  Time.mk (Log.ts (Event.row r)) (Event.start_time r) (Event.datetime r)
          (Calendar.hour (Event.datetime r))
          (Calendar.dayofmonth (Event.datetime r))
          (Calendar.weekofyear (Event.datetime r))
          (Calendar.year (Event.datetime r))
          (Calendar.month (Event.datetime r))
          (Calendar.dayofweek (Event.datetime r)).

Definition time_table (df : list Event.t) : list Time.t :=
  distinct (select_time <$> df).

(** The join condition
    [(song_df.title == df.song) & (song_df.artist_name == df.artist)]. *)
Definition join_on (s : Song.t) (l : Event.t) : bool :=
  sql_eq (Song.title s) (Log.song (Event.row l))
  && sql_eq (Song.artist_name s) (Log.artist (Event.row l)).

(** The [select] of [songplays_table] on a joined pair. *)
Definition select_songplays (sl : Song.t * Event.t) : Songplays.t :=
  let (s, l) := sl in
  Songplays.mk (Event.start_time l)
               (Calendar.year (Event.datetime l))
               (Calendar.month (Event.datetime l))
               (Log.userId (Event.row l))
               (Log.level (Event.row l))
               (Song.song_id s)
               (Song.artist_id s)
               (Log.sessionId (Event.row l))
               (Log.location (Event.row l))
               (Log.userAgent (Event.row l)).

(** [song_df.alias('s').join(df.alias('l'), ...).where(df.page ==
    'NextSong').select([...])] *)
Definition songplays_table (song_df : list Song.t) (df : list Event.t)
    : list Songplays.t :=
  select_songplays
  <$> where_ (λ sl, sql_eq (Log.page (Event.row sl.2)) (Some "NextSong"))
        (join join_on song_df df).

Definition process_log_data (spark : SparkSession) (input_data output_data : string)
    : Job () :=
  let log_data := input_data +:+ "log-data/" in
  let df := read_json_logs spark log_data in
  let df := filter_NextSong df in
  let users_path := output_data +:+ "users" in
  parquet (write (Ok (RUsers <$> users_table df))) users_path ;;;
  let df := withColumns df in
  let time_table_path := output_data +:+ "time" in
  parquet (partitionBy ["year"; "month"]
             (write (fmap RTime ∘ time_table <$> df))) time_table_path ;;;
  let songs_path := input_data +:+ "song_data/*/*/*/*.json" in
  let song_df := read_json_songs spark songs_path in
  let df := drop_duplicates Event.start_time <$> df in
  let songplays_path := output_data +:+ "songplays" in
  parquet (partitionBy ["year"; "month"]
             (write (fmap RSongplays ∘ songplays_table song_df <$> df)))
          songplays_path.

Definition input_data : string := "s3a://bucket-name/viraj/".
Definition output_data : string := "s3a://bucket-name/viraj/output-".

(** [main()], on the session [create_spark_session()] returns. *)
Definition main (spark : SparkSession) : Job () :=
  process_song_data spark input_data output_data ;;;
  process_log_data spark input_data output_data.

(** The frame that [process_log_data] writes under [songplays], as a
    function of the two frames it reads. *)
Definition songplays_plan (song_df : list Song.t) (log_df : list Log.t)
    : result (list Songplays.t) :=
  songplays_table song_df
  <$> (drop_duplicates Event.start_time <$> withColumns (filter_NextSong log_df)).

(** The frame that [process_log_data] writes under [time]. *)
Definition time_plan (log_df : list Log.t) : result (list Time.t) :=
  time_table <$> withColumns (filter_NextSong log_df).

End Notebook.

(** ** A concrete platform and corpus, for the examples *)

(** [localtime] of a machine whose system time zone is UTC. *)
Definition utc (s : Z) : option Z := Some s.

Fixpoint digits_value (acc : Z) (s : string) : option Z :=
  match s with
  | EmptyString => Some acc
  | String c s' =>
      let n := Z.of_nat (Ascii.nat_of_ascii c) in
      if bool_decide (48 ≤ n ≤ 57)%Z then digits_value (acc * 10 + (n - 48))%Z s'
      else None
  end.

(** [int] on the strings the examples use: an unsigned run of ASCII digits
    converts, the empty string and a string with any other character do
    not. *)
Definition int_of_digits (s : string) : option Z :=
  match s with
  | EmptyString => None
  | _ => digits_value 0 s
  end.

(** The song record and the log event of the specification's join example;
    the fields the example leaves out are null. *)
Definition toms_diner_song : Song.t :=
  Song.mk None (Some "A1") None None None (Some "Suzanne Vega") (Some "S1")
          (Some "Tom's Diner") None None.

Definition toms_diner_event : Log.t :=
  Log.mk (Some "Suzanne Vega") None None None (Some "free") (Some "LA")
         (Some "NextSong") (Some 5%Z) (Some "Tom's Diner")
         (Some (TsLong 1541990258796)) (Some "UA") (Some "10").

(** The same song, read from a JSON record without [song_id] and
    [artist_id]: both columns are nullable in [song_schema()]. *)
Definition keyless_song : Song.t :=
  Song.mk None None None None None (Some "Suzanne Vega") None
          (Some "Tom's Diner") None None.

(** A second play at the same millisecond, by another user. *)
Definition same_ms_event : Log.t :=
  Log.mk (Some "Suzanne Vega") None None None (Some "paid") (Some "NY")
         (Some "NextSong") (Some 9%Z) (Some "Tom's Diner")
         (Some (TsLong 1541990258796)) (Some "UA") (Some "11").

(** A page view that is no song play. *)
Definition home_event : Log.t :=
  Log.mk None None None None (Some "free") (Some "LA")
         (Some "Home") (Some 5%Z) None
         (Some (TsLong 1541990258000)) (Some "UA") (Some "10").

(** A song play whose record has no [ts]. *)
Definition null_ts_event : Log.t :=
  Log.mk (Some "Suzanne Vega") None None None (Some "free") (Some "LA")
         (Some "NextSong") (Some 5%Z) (Some "Tom's Diner")
         None (Some "UA") (Some "10").

(** The frame of [toms_diner_event] with its two UDF columns, on [utc]:
    2018-11-12T02:37:38.796, day 17847. *)
Definition toms_diner_played : Event.t :=
  Event.mk toms_diner_event 1541990258796000 17847.

Definition same_ms_played : Event.t :=
  Event.mk same_ms_event 1541990258796000 17847.

(** A session that reads the given song and log records at every path. *)
Definition session_of (songs : list Song.t) (logs : list Log.t) : SparkSession :=
  mkSpark (λ _, songs) (λ _, logs).

(** The song of the example under a second [song_id]: same title and
    artist name. *)
Definition toms_diner_cover : Song.t :=
  Song.mk None (Some "A1") None None None (Some "Suzanne Vega") (Some "S2")
          (Some "Tom's Diner") None None.

Definition toms_diner_row : Songplays.t :=
  Songplays.mk 1541990258796000 2018 11 (Some "10") (Some "free")
               (Some "S1") (Some "A1") (Some 5%Z) (Some "LA") (Some "UA").

Definition toms_diner_time : Time.t :=
  Time.mk (Some (TsLong 1541990258796)) 1541990258796000 17847 0 12 46 2018 11 2.

(** ** What the jobs are checked against *)

(** A job keeps what is already stored. *)
Definition preserves_existing (job : Job ()) : Prop :=
  ∀ st p d, st !! p = Some d → (job st).2 !! p = Some d.

(** A job raises when it finds something under [p]. *)
Definition raises_if_exists (p : string) (job : Job ()) : Prop :=
  ∀ st, is_Some (st !! p) → ∃ e, (job st).1 = Raise e.

(** Whatever a job stores is stored under a path of [policy], with the
    partition columns [policy] gives for it. *)
Definition writes_within (policy : list (string * list string)) (job : Job ())
    : Prop :=
  ∀ st p d, (job st).2 !! p = Some d →
    st !! p = Some d ∨ (p, partition d) ∈ policy.

(** A job that returns leaves a dataset partitioned by [cols] under [p]. *)
Definition establishes (p : string) (cols : list string) (job : Job ()) : Prop :=
  ∀ st, (job st).1 = Ok () →
    ∃ d, (job st).2 !! p = Some d ∧ partition d = cols.

(** [kept] is a deduplication of [df] by the column [k]: rows of [df], one
    for every value of [k] in [df]. Which row stands for a value is left
    open, as [drop_duplicates(subset=...)] leaves it. *)
Definition deduplicated_by {A K} (k : A → K) (df kept : list A) : Prop :=
  (∀ r, r ∈ kept → r ∈ df)
  ∧ (∀ r, r ∈ df → ∃ r', r' ∈ kept ∧ k r' = k r)
  ∧ NoDup (k <$> kept).

(** The store holds under [p] a dataset partitioned by [cols] whose rows
    are [rs], in some order. *)
Definition holds (st : Store) (p : string) (cols : list string) (rs : list Row)
    : Prop :=
  ∃ d, st !! p = Some d ∧ partition d = cols ∧ rows d ≡ₚ rs.

(** [st'] is [st] with such a dataset added under the free path [p], and
    nothing else changed. *)
Definition adds (st st' : Store) (p : string) (cols : list string)
    (rs : list Row) : Prop :=
  st !! p = None ∧ holds st' p cols rs ∧ ∀ q, q ≠ p → st' !! q = st !! q.

(** The partition keys of each table, as the specification's table of
    section 4.5 lists them: the path suffix of a table and its columns. *)
Definition spec_partition_policy : list (string * list string) :=
  [ ("songs", ["year"; "artist_id"]);
    ("artists", []);
    ("users", []);
    ("time", ["year"; "month"]);
    ("songplays", ["year"; "month"]) ].

(** * Properties *)

(** ** Frames *)

Section Frames.
Context {A : Type}.

Lemma elem_of_where_ (c : A → bool) (df : list A) (r : A) :
  r ∈ where_ c df ↔ c r = true ∧ r ∈ df.
Proof. unfold where_. by rewrite list_elem_of_filter. Qed.

Lemma NoDup_where_ (c : A → bool) (df : list A) :
  NoDup df → NoDup (where_ c df).
Proof. unfold where_. apply NoDup_filter. Qed.

Lemma where__app (c : A → bool) (df1 df2 : list A) :
  where_ c (df1 ++ df2) = where_ c df1 ++ where_ c df2.
Proof. unfold where_. apply filter_app. Qed.

Lemma where__cons_false (c : A → bool) (r : A) (df : list A) :
  c r = false → where_ c (r :: df) = where_ c df.
Proof.
  intros Hc. unfold where_. apply filter_cons_False. congruence.
Qed.

Lemma where__cons_true (c : A → bool) (r : A) (df : list A) :
  c r = true → where_ c (r :: df) = r :: where_ c df.
Proof. intros Hc. unfold where_. by apply filter_cons_True. Qed.

Lemma where__idemp (c : A → bool) (df : list A) :
  where_ c (where_ c df) = where_ c df.
Proof.
  induction df as [|r df IH]; [done|].
  destruct (c r) eqn:Hc.
  - rewrite (where__cons_true _ _ _ Hc), (where__cons_true _ _ _ Hc).
    by f_equal.
  - by rewrite (where__cons_false _ _ _ Hc).
Qed.

Lemma NoDup_distinct `{EqDecision A} (df : list A) : NoDup (distinct df).
Proof. apply NoDup_remove_dups. Qed.

Section drop.
Context `{EqDecision K} (k : A → K).

Lemma drop_duplicates_subseteq (df : list A) (r : A) :
  r ∈ drop_duplicates k df → r ∈ df.
Proof.
  induction df as [|a df IH]; simpl; [done|].
  rewrite !elem_of_cons, list_elem_of_filter.
  intros [->|[_ Hr]]; [by left|right; by apply IH].
Qed.

(** Every key of the frame is still present after [drop_duplicates]. *)
Lemma drop_duplicates_key (df : list A) (r : A) :
  r ∈ df → ∃ r', r' ∈ drop_duplicates k df ∧ k r' = k r.
Proof.
  induction df as [|a df IH]; simpl; [by intros ?%elem_of_nil|].
  intros [->|Hr]%elem_of_cons.
  - exists a. split; [left|done].
  - destruct (decide (k r = k a)) as [E|E].
    + exists a. split; [left|done].
    + destruct (IH Hr) as (r' & Hr' & Hk). exists r'. split; [|done].
      right. apply list_elem_of_filter. split; [congruence|done].
Qed.

Lemma filter_key_absent (x : K) (df : list A) :
  (∀ r, r ∈ df → k r ≠ x) → filter (λ r, k r = x) df = [].
Proof.
  induction df as [|a df IH]; [done|]. intros H.
  rewrite filter_cons_False; [|apply H; left].
  apply IH. intros r Hr. apply H. by right.
Qed.

(** After [drop_duplicates], a key of the frame has exactly one row. *)
Lemma drop_duplicates_one (df : list A) (r : A) :
  r ∈ df → length (filter (λ r', k r' = k r) (drop_duplicates k df)) = 1.
Proof.
  induction df as [|a df IH]; simpl; [by intros ?%elem_of_nil|].
  intros Hr. destruct (decide (k a = k r)) as [E|E].
  - rewrite filter_cons_True by done. simpl. f_equal.
    rewrite filter_key_absent; [done|].
    intros r' [Hne _]%list_elem_of_filter. congruence.
  - rewrite filter_cons_False by done.
    apply elem_of_cons in Hr as [->|Hr]; [done|].
    rewrite list_filter_filter.
    rewrite <- (IH Hr). f_equal. apply list_filter_iff.
    intros r'. split; [tauto|]. intros Hk. split; [done|congruence].
Qed.

Lemma NoDup_drop_duplicates (df : list A) :
  NoDup (k <$> drop_duplicates k df).
Proof.
  induction df as [|a df IH]; simpl; [constructor|].
  apply NoDup_cons. split.
  - intros (r' & Hk & [Hne _]%list_elem_of_filter)%list_elem_of_fmap.
    by apply Hne.
  - clear -IH. induction (drop_duplicates k df) as [|b l IHl]; [constructor|].
    simpl in IH. apply NoDup_cons in IH as [Hb Hl].
    destruct (decide (k b ≠ k a)).
    + rewrite filter_cons_True by done. simpl. apply NoDup_cons. split.
      * intros (r' & Hk & [_ Hin]%list_elem_of_filter)%list_elem_of_fmap.
        apply Hb. apply list_elem_of_fmap. eauto.
      * by apply IHl.
    + rewrite filter_cons_False by done. by apply IHl.
Qed.
End drop.
End Frames.

(** ** The inner join *)

Section Join.
Context {A B : Type} (on : A → B → bool).

Lemma elem_of_join (left : list A) (right : list B) (a : A) (b : B) :
  (a, b) ∈ join on left right ↔ a ∈ left ∧ b ∈ right ∧ on a b = true.
Proof.
  unfold join. rewrite list_elem_of_bind. split.
  - intros (a' & (b' & Hab & Hb)%list_elem_of_bind & Ha).
    destruct (on a' b') eqn:Hon; [|by apply elem_of_nil in Hab].
    apply list_elem_of_singleton in Hab. by simplify_eq.
  - intros (Ha & Hb & Hon). exists a. split; [|done].
    apply list_elem_of_bind. exists b. split; [|done].
    rewrite Hon. by apply list_elem_of_singleton.
Qed.

Lemma join_cons (a : A) (left : list A) (right : list B) :
  join on (a :: left) right =
    (right ≫= λ b, if on a b then [(a, b)] else []) ++ join on left right.
Proof. done. Qed.

(** A right-hand row that meets no left-hand row adds nothing. *)
Lemma join_drop_unmatched (left : list A) (r1 r2 : list B) (b : B) :
  (∀ a, a ∈ left → on a b = false) →
  join on left (r1 ++ b :: r2) = join on left (r1 ++ r2).
Proof.
  induction left as [|a left IH]; intros Hb; [done|].
  rewrite !join_cons, IH by (intros; apply Hb; by right).
  f_equal. rewrite !bind_app, bind_cons, Hb by left. done.
Qed.
End Join.

(** Rows of a frame with distinct keys: one key selects at most one row. *)
Lemma filter_unique_key {A} `{EqDecision K} (k : A → K) (P : A → Prop)
    `{!∀ x, Decision (P x)} (df : list A) (e : A) :
  NoDup (k <$> df) → e ∈ df →
  length (filter (λ l, k l = k e ∧ P l) df) = if decide (P e) then 1 else 0.
Proof.
  induction df as [|a df IH]; [by intros _ ?%elem_of_nil|].
  rewrite fmap_cons, NoDup_cons. intros [Ha Hdf] [->|He]%elem_of_cons.
  - assert (filter (λ l, k l = k a ∧ P l) df = []) as Hnil.
    { clear IH. induction df as [|b df IH]; [done|].
      rewrite filter_cons_False.
      - apply IH; [|by apply NoDup_cons in Hdf as [_ ?]].
        intros Hin. apply Ha. rewrite fmap_cons. by right.
      - intros [Hk _]. apply Ha. rewrite fmap_cons, Hk. left. }
    destruct (decide (P a)).
    + rewrite filter_cons_True by done. simpl. by rewrite Hnil.
    + rewrite filter_cons_False by tauto. by rewrite Hnil.
  - rewrite filter_cons_False; [by apply IH|].
    intros [Hk _]. apply Ha. rewrite Hk. by apply list_elem_of_fmap_2.
Qed.

Lemma length_filter_ext {A} (P Q : A → Prop) `{!∀ x, Decision (P x)}
    `{!∀ x, Decision (Q x)} (l : list A) :
  (∀ x, x ∈ l → P x ↔ Q x) → length (filter P l) = length (filter Q l).
Proof.
  induction l as [|a l IH]; intros Hext; [done|].
  assert (length (filter P l) = length (filter Q l)) as E
    by (apply IH; intros; apply Hext; by right).
  destruct (decide (P a)) as [Ha|Ha].
  - rewrite !filter_cons_True; [simpl; by f_equal| |done].
    apply Hext; [left|done].
  - rewrite !filter_cons_False; [done| |done].
    intros HQ. apply Ha, Hext; [left|done].
Qed.

(** ** The songplays join *)

Lemma sql_eq_true `{EqDecision A} (a b : option A) :
  sql_eq a b = true ↔ ∃ x, a = Some x ∧ b = Some x.
Proof.
  destruct a as [x|], b as [y|]; simpl; try (split; [done|by intros (? & ? & ?)]).
  rewrite bool_decide_eq_true. split; [intros ->; eauto|].
  by intros (? & ? & ?); simplify_eq.
Qed.

Lemma join_on_true (s : Song.t) (l : Event.t) :
  join_on s l = true ↔
    ∃ t a, Song.title s = Some t ∧ Log.song (Event.row l) = Some t
           ∧ Song.artist_name s = Some a ∧ Log.artist (Event.row l) = Some a.
Proof.
  unfold join_on. rewrite andb_true_iff, !sql_eq_true. split.
  - intros [(t & ? & ?) (a & ? & ?)]. by exists t, a.
  - intros (t & a & ? & ? & ? & ?). split; [by exists t|by exists a].
Qed.

Lemma songplays_table_cons (s : Song.t) (song_df : list Song.t) (df : list Event.t) :
  songplays_table (s :: song_df) df =
    ((λ l, select_songplays (s, l))
     <$> filter (λ l, join_on s l = true
                      ∧ sql_eq (Log.page (Event.row l)) (Some "NextSong") = true) df)
    ++ songplays_table song_df df.
Proof.
  unfold songplays_table. rewrite join_cons, where__app, fmap_app. f_equal.
  induction df as [|l df IH]; [done|].
  rewrite bind_cons, where__app, fmap_app, IH. clear IH.
  destruct (join_on s l) eqn:Hon.
  - destruct (sql_eq (Log.page (Event.row l)) (Some "NextSong")) eqn:Hpg.
    + rewrite where__cons_true by done. by rewrite filter_cons_True.
    + rewrite where__cons_false by done. rewrite filter_cons_False; [done|].
      intros [_ ?]. congruence.
  - rewrite filter_cons_False; [done|]. intros [? _]. congruence.
Qed.

Lemma elem_of_songplays_table (song_df : list Song.t) (df : list Event.t)
    (r : Songplays.t) :
  r ∈ songplays_table song_df df ↔
    ∃ s l, s ∈ song_df ∧ l ∈ df ∧ join_on s l = true
           ∧ sql_eq (Log.page (Event.row l)) (Some "NextSong") = true
           ∧ r = select_songplays (s, l).
Proof.
  unfold songplays_table. rewrite list_elem_of_fmap. split.
  - intros ([s l] & -> & [Hpg Hj]%elem_of_where_).
    apply elem_of_join in Hj as (? & ? & ?). eauto 10.
  - intros (s & l & ? & ? & ? & ? & ->). exists (s, l). split; [done|].
    apply elem_of_where_. split; [done|]. by apply elem_of_join.
Qed.

Lemma length_filter_fmap {A B} (f : A → B) (P : B → Prop)
    `{!∀ x, Decision (P x)} (l : list A) :
  length (filter P (f <$> l)) = length (filter (λ x, P (f x)) l).
Proof.
  induction l as [|a l IH]; [done|]. rewrite fmap_cons.
  destruct (decide (P (f a))).
  - rewrite !filter_cons_True by done. simpl. by f_equal.
  - by rewrite !filter_cons_False by done.
Qed.

(** In a frame with one row per [start_time], the songplays rows of an
    event are as many as the song records that join with it. *)
Lemma songplays_rows_of_event (song_df : list Song.t) (df : list Event.t)
    (e : Event.t) :
  NoDup (Event.start_time <$> df) → e ∈ df →
  Log.page (Event.row e) = Some "NextSong" →
  length (filter (λ r, Songplays.start_time r = Event.start_time e)
                 (songplays_table song_df df))
  = length (filter (λ s, join_on s e = true) song_df).
Proof.
  intros Hnd He Hpg. induction song_df as [|s song_df IH]; [done|].
  rewrite songplays_table_cons, filter_app, length_app, IH. clear IH.
  rewrite length_filter_fmap, list_filter_filter. simpl.
  rewrite (filter_unique_key Event.start_time
             (λ l, join_on s l = true
                   ∧ sql_eq (Log.page (Event.row l)) (Some "NextSong") = true)
             df e Hnd He).
  destruct (join_on s e) eqn:Hon.
  - rewrite filter_cons_True by done. rewrite decide_True; [done|].
    split; [done|]. by rewrite Hpg.
  - rewrite filter_cons_False by congruence. rewrite decide_False; [done|].
    intros [? _]. congruence.
Qed.

Section Properties.
Variable int_of_str : string → option Z.
Variable localtime : Z → option Z.

Local Abbreviation withColumns_row' := (withColumns_row int_of_str localtime).
Local Abbreviation withColumns' := (withColumns int_of_str localtime).
Local Abbreviation songplays_plan' := (songplays_plan int_of_str localtime).
Local Abbreviation time_plan' := (time_plan int_of_str localtime).
Local Abbreviation process_log_data' := (process_log_data int_of_str localtime).
Local Abbreviation main' := (main int_of_str localtime).
Local Abbreviation py_int' := (py_int int_of_str).
Local Abbreviation format_datetime' := (format_datetime localtime).
Local Abbreviation get_timestamp' := (get_timestamp int_of_str localtime).
Local Abbreviation get_datetime' := (get_datetime int_of_str localtime).

(** *** The UDF columns *)

Lemma withColumns_row_Some (r : Log.t) (e : Event.t) :
  withColumns_row' r = Some e →
  Event.row e = r ∧ ∃ n, py_int' (Log.ts r) = Some n
                         ∧ format_datetime' n = Some (Event.start_time e).
Proof.
  unfold withColumns_row, get_timestamp, get_datetime.
  destruct (py_int' (Log.ts r)) as [n|]; simpl; [|done].
  destruct (format_datetime' n) as [d|] eqn:Hd; simpl; [|done].
  intros [= <-]. simpl. split; [done|]. by exists n.
Qed.

Lemma withColumns_Ok (df : list Log.t) (events : list Event.t) :
  withColumns' df = Ok events ↔ mapM withColumns_row' df = Some events.
Proof.
  unfold withColumns. destruct (mapM _ df); simpl; split; congruence.
Qed.

Lemma withColumns_elem (df : list Log.t) (events : list Event.t) (e : Event.t) :
  withColumns' df = Ok events → e ∈ events →
  Event.row e ∈ df ∧ withColumns_row' (Event.row e) = Some e.
Proof.
  rewrite withColumns_Ok, mapM_Some. intros HF He.
  induction HF as [|r e' df events Hr HF IH]; [by apply elem_of_nil in He|].
  apply elem_of_cons in He as [->|He].
  - destruct (withColumns_row_Some _ _ Hr) as [-> _]. split; [left|done].
  - destruct (IH He). split; [by right|done].
Qed.

(** One row whose [ts] the UDF cannot convert fails the whole frame. *)
Lemma withColumns_Raise (df : list Log.t) (r : Log.t) :
  r ∈ df → py_int' (Log.ts r) = None → withColumns' df = Raise PythonException.
Proof.
  intros Hr Hts. unfold withColumns.
  rewrite (mapM_None_2 withColumns_row' df); [done|].
  apply Exists_exists. exists r. split; [done|].
  unfold withColumns_row, get_timestamp. by rewrite Hts.
Qed.

Lemma filter_NextSong_page (df : list Log.t) (r : Log.t) :
  r ∈ filter_NextSong df ↔ Log.page r = Some "NextSong" ∧ r ∈ df.
Proof.
  unfold filter_NextSong. rewrite elem_of_where_, sql_eq_true.
  split; [intros [(x & -> & [= <-]) ?]; done|].
  intros [-> ?]. eauto.
Qed.

Lemma filter_NextSong_drop (l1 l2 : list Log.t) (r : Log.t) :
  Log.page r ≠ Some "NextSong" →
  filter_NextSong (l1 ++ r :: l2) = filter_NextSong (l1 ++ l2).
Proof.
  intros Hpg. unfold filter_NextSong. rewrite !where__app. f_equal.
  apply where__cons_false. destruct (sql_eq _ _) eqn:E; [|done].
  apply sql_eq_true in E as (x & ? & [= <-]). done.
Qed.

Lemma filter_NextSong_idemp (df : list Log.t) :
  filter_NextSong (filter_NextSong df) = filter_NextSong df.
Proof. apply where__idemp. Qed.

(** *** Writes in the default save mode *)

Lemma parquet_ErrorIfExists (w : DataFrameWriter) (path : string) (st : Store) :
  w_mode w = ErrorIfExists →
  parquet w path st =
    match st !! path with
    | Some _ => (Raise (AnalysisException path), st)
    | None =>
        match w_plan w with
        | Raise e => (Raise e, st)
        | Ok new => (Ok (), <[path := mkDataset (w_partitionBy w) new]> st)
        end
    end.
Proof.
  intros Hm. unfold parquet. rewrite Hm.
  destruct (st !! path); [done|]. by destruct (w_plan w).
Qed.

Lemma parquet_preserves_existing (w : DataFrameWriter) (path : string) :
  w_mode w = ErrorIfExists → preserves_existing (parquet w path).
Proof.
  intros Hm st p d Hp. rewrite parquet_ErrorIfExists by done.
  destruct (st !! path) eqn:Hpath; [done|].
  destruct (w_plan w); [|done]. simpl.
  rewrite lookup_insert_ne; [done|]. intros ->. congruence.
Qed.

Lemma parquet_raises_if_exists (w : DataFrameWriter) (path : string) :
  w_mode w = ErrorIfExists → raises_if_exists path (parquet w path).
Proof.
  intros Hm st [d Hd]. rewrite parquet_ErrorIfExists, Hd by done. eauto.
Qed.

Lemma parquet_writes_within (w : DataFrameWriter) (path : string)
    (policy : list (string * list string)) :
  w_mode w = ErrorIfExists → (path, w_partitionBy w) ∈ policy →
  writes_within policy (parquet w path).
Proof.
  intros Hm Hin st p d. rewrite parquet_ErrorIfExists by done.
  destruct (st !! path) eqn:Hpath; [by left|].
  destruct (w_plan w); [|by left]. simpl.
  destruct (decide (path = p)) as [->|Hne].
  - rewrite lookup_insert_eq. intros [= <-]. by right.
  - rewrite lookup_insert_ne by done. by left.
Qed.

Lemma parquet_establishes (w : DataFrameWriter) (path : string) :
  w_mode w = ErrorIfExists → establishes path (w_partitionBy w) (parquet w path).
Proof.
  intros Hm st. rewrite parquet_ErrorIfExists by done.
  destruct (st !! path); [done|]. destruct (w_plan w); [|done]. simpl.
  intros _. rewrite lookup_insert_eq. eauto.
Qed.

Section seq.
Context (m k : Job ()).

Lemma seq_Ok (st : Store) :
  ((m ;;; k) st).1 = Ok () →
  (m st).1 = Ok () ∧ (m ;;; k) st = k (m st).2.
Proof.
  unfold bind. destruct (m st) as [[[]|e] st']; simpl; [done|done].
Qed.

Lemma seq_store (st : Store) :
  ((m ;;; k) st).2 = (m st).2 ∨ ((m ;;; k) st).2 = (k (m st).2).2.
Proof.
  unfold bind. destruct (m st) as [[[]|e] st']; simpl; [by right|by left].
Qed.

Lemma seq_preserves_existing :
  preserves_existing m → preserves_existing k → preserves_existing (m ;;; k).
Proof.
  intros Hm Hk st p d Hp. destruct (seq_store st) as [->| ->]; [by apply Hm|].
  by apply Hk, Hm.
Qed.

Lemma seq_raises_l (p : string) :
  raises_if_exists p m → raises_if_exists p (m ;;; k).
Proof.
  intros Hm st Hp. destruct (Hm st Hp) as [e He]. exists e.
  unfold bind. destruct (m st) as [[[]|e'] st']; simpl in *; congruence.
Qed.

Lemma seq_raises_r (p : string) :
  preserves_existing m → raises_if_exists p k → raises_if_exists p (m ;;; k).
Proof.
  intros Hm Hk st [d Hd]. unfold bind.
  pose proof (Hm st p d Hd) as Hd'.
  destruct (m st) as [[[]|e'] st']; simpl in *; [|eauto].
  apply Hk. eauto.
Qed.

Lemma seq_writes_within (policy : list (string * list string)) :
  writes_within policy m → writes_within policy k →
  writes_within policy (m ;;; k).
Proof.
  intros Hm Hk st p d. destruct (seq_store st) as [->| ->]; [by apply Hm|].
  intros [Hd|Hd]%Hk; [by apply Hm|by right].
Qed.

Lemma seq_establishes_l (p : string) (cols : list string) :
  establishes p cols m → preserves_existing k → establishes p cols (m ;;; k).
Proof.
  intros Hm Hk st [Hok Heq]%seq_Ok. rewrite Heq.
  destruct (Hm st Hok) as (d & Hd & Hc). exists d. split; [|done].
  by apply Hk.
Qed.

Lemma seq_establishes_r (p : string) (cols : list string) :
  establishes p cols k → establishes p cols (m ;;; k).
Proof.
  intros Hk st HOk. destruct (seq_Ok st HOk) as [_ Heq]. rewrite Heq.
  apply Hk. by rewrite <- Heq.
Qed.
End seq.

(** *** The notebook's jobs *)

(** The three writes of [process_log_data], over the plans it builds. *)
Lemma process_log_data_plans (spark : SparkSession) (i o : string) (st : Store) :
  let log_df := read_json_logs spark (i +:+ "log-data/") in
  let song_df := read_json_songs spark (i +:+ "song_data/*/*/*/*.json") in
  let users := Ok (RUsers <$> users_table (filter_NextSong log_df)) in
  let time := fmap (M:=list) RTime <$> time_plan' log_df in
  let songplays := fmap (M:=list) RSongplays <$> songplays_plan' song_df log_df in
  process_log_data' spark i o st =
    (parquet (write users) (o +:+ "users") ;;;
     parquet (partitionBy ["year"; "month"] (write time)) (o +:+ "time") ;;;
     parquet (partitionBy ["year"; "month"] (write songplays)) (o +:+ "songplays")) st.
Proof.
  simpl. unfold process_log_data, time_plan, songplays_plan.
  by destruct (withColumns' _).
Qed.

Ltac job_step :=
  first
    [ apply seq_preserves_existing
    | apply parquet_preserves_existing; reflexivity
    | apply seq_writes_within
    | apply parquet_writes_within; [reflexivity|] ].

Lemma process_song_data_preserves_existing (spark : SparkSession) (i o : string) :
  preserves_existing (process_song_data spark i o).
Proof. unfold process_song_data. repeat job_step. Qed.

Lemma process_log_data_preserves_existing (spark : SparkSession) (i o : string) :
  preserves_existing (process_log_data' spark i o).
Proof. unfold process_log_data. repeat job_step. Qed.

Lemma main_preserves_existing (spark : SparkSession) :
  preserves_existing (main' spark).
Proof.
  apply seq_preserves_existing;
    [apply process_song_data_preserves_existing
    |apply process_log_data_preserves_existing].
Qed.

Lemma main_raises_if_exists (spark : SparkSession) (t : string) (cols : list string) :
  (t, cols) ∈ spec_partition_policy →
  raises_if_exists (output_data +:+ t) (main' spark).
Proof.
  unfold spec_partition_policy. rewrite !elem_of_cons, elem_of_nil.
  unfold main, process_song_data, process_log_data.
  intros [[= -> _]|[[= -> _]|[[= -> _]|[[= -> _]|[[= -> _]|[]]]]]].
  - apply seq_raises_l, seq_raises_l. by apply parquet_raises_if_exists.
  - apply seq_raises_l, seq_raises_r; [by apply parquet_preserves_existing|].
    by apply parquet_raises_if_exists.
  - apply seq_raises_r; [apply process_song_data_preserves_existing|].
    apply seq_raises_l. by apply parquet_raises_if_exists.
  - apply seq_raises_r; [apply process_song_data_preserves_existing|].
    apply seq_raises_r; [by apply parquet_preserves_existing|].
    apply seq_raises_l. by apply parquet_raises_if_exists.
  - apply seq_raises_r; [apply process_song_data_preserves_existing|].
    apply seq_raises_r; [by apply parquet_preserves_existing|].
    apply seq_raises_r; [by apply parquet_preserves_existing|].
    by apply parquet_raises_if_exists.
Qed.

Lemma main_writes_within (spark : SparkSession) :
  writes_within ((λ tc, (output_data +:+ tc.1, tc.2)) <$> spec_partition_policy)
                (main' spark).
Proof.
  unfold main, process_song_data, process_log_data.
  repeat job_step; simpl; rewrite !elem_of_cons; tauto.
Qed.

Lemma main_establishes (spark : SparkSession) (t : string) (cols : list string) :
  (t, cols) ∈ spec_partition_policy →
  establishes (output_data +:+ t) cols (main' spark).
Proof.
  unfold spec_partition_policy. rewrite !elem_of_cons, elem_of_nil.
  unfold main.
  intros [[= -> ->]|[[= -> ->]|[[= -> ->]|[[= -> ->]|[[= -> ->]|[]]]]]].
  - apply seq_establishes_l; [|apply process_log_data_preserves_existing].
    unfold process_song_data.
    apply seq_establishes_l; [|by apply parquet_preserves_existing].
    by apply (parquet_establishes (partitionBy _ _)).
  - apply seq_establishes_l; [|apply process_log_data_preserves_existing].
    unfold process_song_data. apply seq_establishes_r.
    by apply (parquet_establishes (write _)).
  - apply seq_establishes_r. unfold process_log_data.
    apply seq_establishes_l; [|repeat job_step].
    by apply (parquet_establishes (write _)).
  - apply seq_establishes_r. unfold process_log_data.
    apply seq_establishes_r.
    apply seq_establishes_l; [|repeat job_step].
    by apply (parquet_establishes (partitionBy _ _)).
  - apply seq_establishes_r. unfold process_log_data.
    do 2 apply seq_establishes_r.
    by apply (parquet_establishes (partitionBy _ _)).
Qed.

(** *** Timestamps *)

Lemma format_datetime_eq (ts : Z) :
  format_datetime' ts =
    (λ w, w * 1000000 + ts `mod` 1000 * 1000)%Z <$> localtime (ts `div` 1000)%Z.
Proof.
  unfold format_datetime, fromtimestamp.
  assert ((ts * 1000) `div` 1000000 = ts `div` 1000)%Z as ->
    by (apply (Z.div_mul_cancel_r ts 1000 1000); lia).
  assert ((ts * 1000) `mod` 1000000 = ts `mod` 1000 * 1000)%Z as ->
    by (apply (Z.mul_mod_distr_r ts 1000 1000); lia).
  by destruct (localtime _).
Qed.

Lemma withColumns_row_long (r : Log.t) (n w : Z) :
  Log.ts r = Some (TsLong n) → localtime (n `div` 1000)%Z = Some w →
  withColumns_row' r =
    Some (Event.mk r (w * 1000000 + n `mod` 1000 * 1000)%Z
            ((w * 1000000 + n `mod` 1000 * 1000) `div` 86400000000)%Z).
Proof.
  intros Hts Hw. unfold withColumns_row, get_timestamp, get_datetime.
  rewrite Hts. simpl. rewrite format_datetime_eq, Hw. done.
Qed.

Lemma songplays_table_singleton (s : Song.t) (l : Event.t) :
  join_on s l = true → Log.page (Event.row l) = Some "NextSong" →
  songplays_table [s] [l] = [select_songplays (s, l)].
Proof.
  intros Hon Hpg. rewrite songplays_table_cons.
  rewrite filter_cons_True; [done|]. split; [done|]. by rewrite Hpg.
Qed.

(** C1. Join correctness on the specification's example: with the one song
    record {title "Tom's Diner", artist_name "Suzanne Vega", song_id "S1",
    artist_id "A1"} and the one log event {song "Tom's Diner", artist
    "Suzanne Vega", page "NextSong", ts 1541990258796, userId "10", level
    "free", sessionId 5, location "LA", userAgent "UA"}, whatever their other
    fields hold, the frame written under songplays has exactly one row, with
    song_id "S1", artist_id "A1" and userId "10" (on a platform whose local
    time is defined at that instant). *)
Theorem join_correctness_example
    (num_songs : option Z) (latitude longitude : option Dbl)
    (artist_location : option string) (duration : option Dbl) (year : option Z)
    (firstName gender lastName : option string) (w : Z) :
  localtime 1541990258 = Some w →
  let s := Song.mk num_songs (Some "A1") latitude longitude artist_location
                   (Some "Suzanne Vega") (Some "S1") (Some "Tom's Diner")
                   duration year in
  let e := Log.mk (Some "Suzanne Vega") firstName gender lastName (Some "free")
                  (Some "LA") (Some "NextSong") (Some 5%Z) (Some "Tom's Diner")
                  (Some (TsLong 1541990258796)) (Some "UA") (Some "10") in
  ∃ r, songplays_plan' [s] [e] = Ok [r]
       ∧ Songplays.song_id r = Some "S1"
       ∧ Songplays.artist_id r = Some "A1"
       ∧ Songplays.userId r = Some "10".
Proof.
  intros Hw s e. unfold songplays_plan.
  assert (filter_NextSong [e] = [e]) as -> by reflexivity.
  unfold withColumns. simpl mapM.
  rewrite (withColumns_row_long e 1541990258796 w) by done. simpl.
  match goal with |- context [songplays_table _ (?x :: _)] => set (l := x) end.
  exists (select_songplays (s, l)). split; [|done].
  change (Ok (songplays_table [s] [l]) = Ok [select_songplays (s, l)]).
  by rewrite (songplays_table_singleton s l).
Qed.

Lemma withColumns_row_ts (r1 r2 : Log.t) :
  Log.ts r1 = Log.ts r2 →
  select_time <$> withColumns_row' r1 = select_time <$> withColumns_row' r2.
Proof.
  intros Hts. unfold withColumns_row. rewrite Hts.
  destruct (get_timestamp' (Log.ts r2)) as [t|]; simpl; [|done].
  destruct (get_datetime' (Log.ts r2)) as [d|]; simpl; [|done].
  unfold select_time. simpl. by rewrite Hts.
Qed.



(** *** Dimension tables *)

Lemma isNotNull_true {A} (a : option A) : isNotNull a = true → a ≠ None.
Proof. by destruct a. Qed.

(** C3. For every input, the Songs, Artists and Users tables hold no two
    equal rows, and no row of them has a null key: [song_id] in Songs,
    [artist_id] in Artists, [userId] in Users. *)
Theorem dimension_tables_distinct_keyed (song_df : list Song.t) (log_df : list Log.t) :
  (NoDup (songs_table song_df)
   ∧ ∀ r, r ∈ songs_table song_df → Songs.song_id r ≠ None)
  ∧ (NoDup (artists_table song_df)
     ∧ ∀ r, r ∈ artists_table song_df → Artists.artist_id r ≠ None)
  ∧ (NoDup (users_table (filter_NextSong log_df))
     ∧ ∀ r, r ∈ users_table (filter_NextSong log_df) → Users.userId r ≠ None).
Proof.
  unfold songs_table, artists_table, users_table.
  repeat split;
    try (apply NoDup_where_, NoDup_distinct);
    intros r [Hkey _]%elem_of_where_; by apply isNotNull_true.
Qed.

(** *** The fact table *)

(** C6. Before the join the events are deduplicated by [start_time]: when
    the UDF columns of the filtered log compute to [events], the frame
    written under songplays is the join over
    [drop_duplicates Event.start_time events]; every kept event is one of
    [events], every event of [events] has exactly one kept event with its
    [start_time], and no two kept events share a [start_time]. *)
Theorem songplays_join_after_dedup (song_df : list Song.t) (log_df : list Log.t)
    (events : list Event.t) :
  withColumns' (filter_NextSong log_df) = Ok events →
  let kept := drop_duplicates Event.start_time events in
  songplays_plan' song_df log_df = Ok (songplays_table song_df kept)
  ∧ (∀ e, e ∈ kept → e ∈ events)
  ∧ (∀ e, e ∈ events →
       length (filter (λ e', Event.start_time e' = Event.start_time e) kept) = 1)
  ∧ NoDup (Event.start_time <$> kept).
Proof.
  intros Hev kept. unfold songplays_plan. rewrite Hev. split; [done|].
  split; [apply drop_duplicates_subseteq|].
  split; [apply drop_duplicates_one|apply NoDup_drop_duplicates].
Qed.

(** C2, as the code has it. An event whose (song, artist) pair equals no
    song record's (title, artist_name) adds no row to the join: the table
    is the same with and without it. Every row of the table carries the
    [song_id] and [artist_id] of a song record whose title and artist name
    are the event's, both non-null; the two identifiers are the record's
    own, null when the record's are. *)
Theorem songplays_rows_come_from_matches (song_df : list Song.t) (df : list Event.t) :
  (∀ (df1 df2 : list Event.t) (l : Event.t),
     (∀ s, s ∈ song_df →
        (Song.title s, Song.artist_name s)
        ≠ (Log.song (Event.row l), Log.artist (Event.row l))) →
     songplays_table song_df (df1 ++ l :: df2) = songplays_table song_df (df1 ++ df2))
  ∧ (∀ r, r ∈ songplays_table song_df df →
       ∃ s l t a, s ∈ song_df ∧ l ∈ df
         ∧ Song.title s = Some t ∧ Log.song (Event.row l) = Some t
         ∧ Song.artist_name s = Some a ∧ Log.artist (Event.row l) = Some a
         ∧ Songplays.song_id r = Song.song_id s
         ∧ Songplays.artist_id r = Song.artist_id s
         ∧ Songplays.start_time r = Event.start_time l).
Proof.
  split.
  - intros df1 df2 l Hno. unfold songplays_table.
    rewrite (join_drop_unmatched join_on); [done|].
    intros s Hs. destruct (join_on s l) eqn:Hon; [|done].
    apply join_on_true in Hon as (t & a & Ht & Hs' & Ha & Hl).
    destruct (Hno s Hs). congruence.
  - intros r (s & l & Hs & Hl & Hon & _ & ->)%elem_of_songplays_table.
    apply join_on_true in Hon as (t & a & ? & ? & ? & ?).
    exists s, l, t, a. done.
Qed.



(** *** Filtering *)

(** C4. A log record whose page is not "NextSong" adds nothing to the
    Users, Time and Songplays frames, and the job behaves as if the record
    were not in the log; the job on a log is the job on its
    [filter_NextSong] rows. *)
Theorem non_NextSong_contributes_nothing (spark : SparkSession) (i o : string)
    (l1 l2 : list Log.t) (r : Log.t) :
  Log.page r ≠ Some "NextSong" →
  read_json_logs spark (i +:+ "log-data/") = l1 ++ r :: l2 →
  users_table (filter_NextSong (l1 ++ r :: l2)) = users_table (filter_NextSong (l1 ++ l2))
  ∧ time_plan' (l1 ++ r :: l2) = time_plan' (l1 ++ l2)
  ∧ (∀ song_df,
       songplays_plan' song_df (l1 ++ r :: l2) = songplays_plan' song_df (l1 ++ l2))
  ∧ (∀ st,
       process_log_data' spark i o st =
       process_log_data' (mkSpark (read_json_songs spark) (λ _, l1 ++ l2)) i o st)
  ∧ (∀ st,
       process_log_data' spark i o st =
       process_log_data'
         (mkSpark (read_json_songs spark) (λ _, filter_NextSong (l1 ++ r :: l2)))
         i o st).
Proof.
  intros Hpg Hlog. unfold time_plan, songplays_plan.
  rewrite (filter_NextSong_drop l1 l2 r Hpg).
  repeat split; try done; intros st; unfold process_log_data; simpl; rewrite Hlog.
  - by rewrite (filter_NextSong_drop l1 l2 r Hpg).
  - by rewrite filter_NextSong_idemp, (filter_NextSong_drop l1 l2 r Hpg).
Qed.

(** *** Output *)

(** C7. The partition keys of every run of [main] are the policy's: a
    dataset that the run stores lies under the path of one of the five
    tables and is partitioned by that table's columns (year, artist_id for
    songs; year, month for time and songplays; none for artists and users);
    and a run that returns has stored all five so. *)
Theorem partition_policy_applied (spark : SparkSession) (st : Store) :
  (∀ p d, (main' spark st).2 !! p = Some d →
     st !! p = Some d
     ∨ ∃ t cols, (t, cols) ∈ spec_partition_policy
                 ∧ p = output_data +:+ t ∧ partition d = cols)
  ∧ ((main' spark st).1 = Ok () →
     ∀ t cols, (t, cols) ∈ spec_partition_policy →
       ∃ d, (main' spark st).2 !! (output_data +:+ t) = Some d ∧ partition d = cols).
Proof.
  split.
  - intros p d [Hd|Hd]%main_writes_within; [by left|right].
    apply list_elem_of_fmap in Hd as ([t cols] & [= -> ->] & Hin).
    by exists t, cols.
  - intros HOk t cols Hin. by apply main_establishes.
Qed.

(** C8. A run of [main] that finds a dataset under the output path of any of
    the five tables raises, and leaves that dataset as it was: the writers
    of the notebook are in the default save mode, in which the write of a
    frame onto an existing path raises [AnalysisException] and stores
    nothing. (When the frame's own plan raises too, which of the two
    exceptions surfaces is not stated.) *)
Theorem rerun_fails_on_existing_output (spark : SparkSession) (st : Store)
    (t : string) (cols : list string) (d : Dataset) :
  (t, cols) ∈ spec_partition_policy →
  st !! (output_data +:+ t) = Some d →
  (∃ e, (main' spark st).1 = Raise e)
  ∧ (main' spark st).2 !! (output_data +:+ t) = Some d
  ∧ (∀ new cols',
       parquet (partitionBy cols' (write (Ok new))) (output_data +:+ t) st
         = (Raise (AnalysisException (output_data +:+ t)), st)
       ∧ parquet (write (Ok new)) (output_data +:+ t) st
         = (Raise (AnalysisException (output_data +:+ t)), st)).
Proof.
  intros Hin Hd. split; [|split].
  - apply (main_raises_if_exists spark t cols Hin). eauto.
  - by apply main_preserves_existing.
  - intros new cols'. by rewrite !parquet_ErrorIfExists, Hd.
Qed.

Lemma output_path_ne (o t1 t2 : string) : t1 ≠ t2 → o +:+ t1 ≠ o +:+ t2.
Proof. intros Hne Heq. by apply Hne, (inj (String.app o)). Qed.

(** C10. When a record kept by the "NextSong" filter has a [ts] that is
    null or that [int] cannot convert, [process_log_data] raises; it
    raises the UDF's exception when the users and time paths are free; and
    it stores nothing under the time and songplays paths. *)
Theorem unconvertible_ts_aborts (spark : SparkSession) (i o : string) (st : Store)
    (r : Log.t) :
  r ∈ read_json_logs spark (i +:+ "log-data/") →
  Log.page r = Some "NextSong" →
  Log.ts r = None ∨ py_int' (Log.ts r) = None →
  (∃ e, (process_log_data' spark i o st).1 = Raise e)
  ∧ (st !! (o +:+ "users") = None → st !! (o +:+ "time") = None →
     (process_log_data' spark i o st).1 = Raise PythonException)
  ∧ (process_log_data' spark i o st).2 !! (o +:+ "time") = st !! (o +:+ "time")
  ∧ (process_log_data' spark i o st).2 !! (o +:+ "songplays")
    = st !! (o +:+ "songplays").
Proof.
  intros Hin Hpg Hts.
  assert (py_int' (Log.ts r) = None) as Hint
    by (destruct Hts as [->|]; done).
  assert (withColumns' (filter_NextSong (read_json_logs spark (i +:+ "log-data/")))
          = Raise PythonException) as Hraise.
  { apply (withColumns_Raise _ r); [|done]. by apply filter_NextSong_page. }
  pose proof (process_log_data_plans spark i o st) as Heq. simpl in Heq.
  rewrite Heq. clear Heq. unfold time_plan, songplays_plan. rewrite Hraise.
  unfold bind. rewrite parquet_ErrorIfExists by done.
  destruct (st !! (o +:+ "users")) eqn:Hu; simpl.
  { split; [eauto|]. split; [done|]. done. }
  rewrite parquet_ErrorIfExists by done.
  rewrite lookup_insert_ne by (by apply output_path_ne).
  assert (∀ x : Dataset, <[o +:+ "users" := x]> st !! (o +:+ "songplays")
                         = st !! (o +:+ "songplays")) as Hsp
    by (intros; rewrite lookup_insert_ne by (by apply output_path_ne); done).
  destruct (st !! (o +:+ "time")) eqn:Ht; simpl.
  - rewrite lookup_insert_ne by (by apply output_path_ne).
    rewrite Hsp. split; [eauto|]. by split.
  - rewrite lookup_insert_ne by (by apply output_path_ne).
    rewrite Hsp. split; [eauto|]. by split.
Qed.

End Properties.

(** * Examples *)

Example int_of_digits_examples :
  int_of_digits "1541990258796" = Some 1541990258796%Z
  ∧ int_of_digits "" = None ∧ int_of_digits "12a" = None.
Proof. done. Qed.

(** A full run on an empty store: the five tables of the join example. *)
Example main_example_run :
  let run := main int_of_digits utc (session_of [toms_diner_song] [toms_diner_event]) ∅ in
  run.1 = Ok ()
  ∧ rows <$> run.2 !! (output_data +:+ "songplays")
    = Some [RSongplays (Songplays.mk 1541990258796000 2018 11 (Some "10") (Some "free")
                          (Some "S1") (Some "A1") (Some 5%Z) (Some "LA") (Some "UA"))]
  ∧ rows <$> run.2 !! (output_data +:+ "time")
    = Some [RTime (Time.mk (Some (TsLong 1541990258796)) 1541990258796000 17847
                     0 12 46 2018 11 2)].
Proof. vm_compute. done. Qed.

Lemma join_correctness_example_witness :
  utc 1541990258 = Some 1541990258%Z
  ∧ ∃ r, songplays_plan int_of_digits utc [toms_diner_song] [toms_diner_event] = Ok [r]
         ∧ Songplays.song_id r = Some "S1"
         ∧ Songplays.artist_id r = Some "A1"
         ∧ Songplays.userId r = Some "10".
Proof.
  split; [reflexivity|].
  apply (join_correctness_example int_of_digits utc None None None None None None
           None None None 1541990258%Z).
  reflexivity.
Defined.

(** Two plays in the same millisecond: one of them reaches the join. *)
Lemma songplays_join_after_dedup_witness :
  withColumns int_of_digits utc (filter_NextSong [toms_diner_event; same_ms_event])
    = Ok [toms_diner_played; same_ms_played]
  ∧ drop_duplicates Event.start_time [toms_diner_played; same_ms_played]
    = [toms_diner_played]
  ∧ songplays_plan int_of_digits utc [toms_diner_song] [toms_diner_event; same_ms_event]
    = Ok (songplays_table [toms_diner_song]
            (drop_duplicates Event.start_time [toms_diner_played; same_ms_played]))
  ∧ (∀ e, e ∈ drop_duplicates Event.start_time [toms_diner_played; same_ms_played] →
          e ∈ [toms_diner_played; same_ms_played])
  ∧ (∀ e, e ∈ [toms_diner_played; same_ms_played] →
       length (filter (λ e', Event.start_time e' = Event.start_time e)
                 (drop_duplicates Event.start_time [toms_diner_played; same_ms_played]))
       = 1)
  ∧ NoDup (Event.start_time
           <$> drop_duplicates Event.start_time [toms_diner_played; same_ms_played]).
Proof.
  split; [reflexivity|]. split; [reflexivity|].
  apply (songplays_join_after_dedup int_of_digits utc [toms_diner_song]
           [toms_diner_event; same_ms_event] [toms_diner_played; same_ms_played]).
  reflexivity.
Defined.

(** A song record without identifiers joins like any other: the row it
    yields has a null [song_id] and a null [artist_id]. *)
Lemma songplays_null_keys_counterexample :
  songplays_plan int_of_digits utc [keyless_song] [toms_diner_event]
  = Ok [Songplays.mk 1541990258796000 2018 11 (Some "10") (Some "free")
          None None (Some 5%Z) (Some "LA") (Some "UA")].
Proof. reflexivity. Qed.



(** A page view next to a song play changes nothing. *)
Lemma non_NextSong_contributes_nothing_witness :
  users_table (filter_NextSong ([] ++ home_event :: [toms_diner_event]))
    = users_table (filter_NextSong ([] ++ [toms_diner_event]))
  ∧ time_plan int_of_digits utc ([] ++ home_event :: [toms_diner_event])
    = time_plan int_of_digits utc ([] ++ [toms_diner_event])
  ∧ (∀ song_df,
       songplays_plan int_of_digits utc song_df ([] ++ home_event :: [toms_diner_event])
       = songplays_plan int_of_digits utc song_df ([] ++ [toms_diner_event]))
  ∧ (∀ st,
       process_log_data int_of_digits utc
         (session_of [toms_diner_song] [home_event; toms_diner_event])
         input_data output_data st
       = process_log_data int_of_digits utc
           (mkSpark (read_json_songs
                       (session_of [toms_diner_song] [home_event; toms_diner_event]))
                    (λ _, [] ++ [toms_diner_event]))
           input_data output_data st)
  ∧ (∀ st,
       process_log_data int_of_digits utc
         (session_of [toms_diner_song] [home_event; toms_diner_event])
         input_data output_data st
       = process_log_data int_of_digits utc
           (mkSpark (read_json_songs
                       (session_of [toms_diner_song] [home_event; toms_diner_event]))
                    (λ _, filter_NextSong ([] ++ home_event :: [toms_diner_event])))
           input_data output_data st).
Proof.
  apply (non_NextSong_contributes_nothing int_of_digits utc
           (session_of [toms_diner_song] [home_event; toms_diner_event])
           input_data output_data [] [toms_diner_event] home_event).
  - discriminate.
  - reflexivity.
Defined.

(** A rerun over the songs of an earlier run. *)
Lemma rerun_fails_on_existing_output_witness :
  let spark := session_of [toms_diner_song] [toms_diner_event] in
  let st : Store := {[ output_data +:+ "songs" := mkDataset ["year"; "artist_id"] [] ]} in
  (main int_of_digits utc spark st).1 = Raise (AnalysisException (output_data +:+ "songs"))
  ∧ (∃ e, (main int_of_digits utc spark st).1 = Raise e)
  ∧ (main int_of_digits utc spark st).2 !! (output_data +:+ "songs")
    = Some (mkDataset ["year"; "artist_id"] [])
  ∧ (∀ new cols',
       parquet (partitionBy cols' (write (Ok new))) (output_data +:+ "songs") st
         = (Raise (AnalysisException (output_data +:+ "songs")), st)
       ∧ parquet (write (Ok new)) (output_data +:+ "songs") st
         = (Raise (AnalysisException (output_data +:+ "songs")), st)).
Proof.
  split; [reflexivity|].
  apply (rerun_fails_on_existing_output int_of_digits utc
           (session_of [toms_diner_song] [toms_diner_event])
           {[ output_data +:+ "songs" := mkDataset ["year"; "artist_id"] [] ]}
           "songs" ["year"; "artist_id"] (mkDataset ["year"; "artist_id"] [])).
  - left.
  - reflexivity.
Defined.

(** A song play without [ts]: the users are written, then the job raises. *)
Lemma unconvertible_ts_aborts_witness :
  let spark := session_of [toms_diner_song] [toms_diner_event; null_ts_event] in
  let run := process_log_data int_of_digits utc spark input_data output_data ∅ in
  is_Some (run.2 !! (output_data +:+ "users"))
  ∧ (∃ e, run.1 = Raise e)
  ∧ ((∅ : Store) !! (output_data +:+ "users") = None →
     (∅ : Store) !! (output_data +:+ "time") = None →
     run.1 = Raise PythonException)
  ∧ run.2 !! (output_data +:+ "time") = (∅ : Store) !! (output_data +:+ "time")
  ∧ run.2 !! (output_data +:+ "songplays")
    = (∅ : Store) !! (output_data +:+ "songplays").
Proof.
  split; [vm_compute; eauto|].
  apply (unconvertible_ts_aborts int_of_digits utc
           (session_of [toms_diner_song] [toms_diner_event; null_ts_event])
           input_data output_data ∅ null_ts_event).
  - right. left.
  - reflexivity.
  - left. reflexivity.
Defined.

(** The time-table row of the example's timestamp on [utc], also when the
    log carries it as a string, and of a play at the same millisecond. *)
Example decompose_timestamp_example :
  let row := Time.mk (Some (TsLong 1541990258796)) 1541990258796000 17847
                     0 12 46 2018 11 2 in
  select_time <$> withColumns_row int_of_digits utc toms_diner_event = Some row
  ∧ select_time <$> withColumns_row int_of_digits utc same_ms_event = Some row
  ∧ get_timestamp int_of_digits utc (Some (TsString "1541990258796"))
    = Some 1541990258796000%Z
  ∧ get_timestamp int_of_digits utc (Some (TsString "Mon Nov 12")) = None
  ∧ get_timestamp int_of_digits utc None = None.
Proof. done. Qed.

(** Under [mode("append")] the same write would have merged. *)
Example append_mode_would_merge :
  let old := RUsers (Users.mk (Some "10") None None None (Some "free")) in
  let new := RUsers (Users.mk (Some "11") None None None (Some "paid")) in
  let st : Store := {[ "users" := mkDataset [] [old] ]} in
  parquet (mode Append (write (Ok [new]))) "users" st
    = (Ok (), {[ "users" := mkDataset [] [old; new] ]})
  ∧ parquet (write (Ok [new])) "users" st = (Raise (AnalysisException "users"), st).
Proof. done. Qed.


(** The run of the join example returns, so it has stored the five tables
    under the policy's keys. *)
Lemma partition_policy_applied_witness :
  let run := main int_of_digits utc (session_of [toms_diner_song] [toms_diner_event]) ∅ in
  run.1 = Ok ()
  ∧ ∀ t cols, (t, cols) ∈ spec_partition_policy →
      ∃ d, run.2 !! (output_data +:+ t) = Some d ∧ partition d = cols.
Proof.
  split; [reflexivity|].
  apply (proj2 (partition_policy_applied int_of_digits utc
                  (session_of [toms_diner_song] [toms_diner_event]) ∅)).
  reflexivity.
Defined.

(** * Further properties of the notebook *)

(** ** Dimension tables: what they hold, and when the key is a key *)

Lemma NoDup_fmap_eq {A B} (f : A → B) (l : list A) (x y : A) :
  NoDup (f <$> l) → x ∈ l → y ∈ l → f x = f y → x = y.
Proof.
  induction l as [|a l IH]; [by intros _ ?%elem_of_nil|].
  rewrite fmap_cons, NoDup_cons. intros [Ha Hl] Hx Hy Hf.
  apply elem_of_cons in Hx as [->|Hx]; apply elem_of_cons in Hy as [->|Hy].
  - done.
  - destruct Ha. rewrite Hf. by apply list_elem_of_fmap_2.
  - destruct Ha. rewrite <- Hf. by apply list_elem_of_fmap_2.
  - by apply IH.
Qed.

(** A table [select.distinct.where(key isNotNull)]: its rows are the keyed
    projections of the frame, and the key column has no repeats exactly
    when records that share a key project to the same row. *)
Section Dimension.
Context {A B K : Type} `{EqDecision B} (f : A → B) (k : B → option K).

Lemma elem_of_dimension (df : list A) (r : B) :
  r ∈ where_ (λ r, isNotNull (k r)) (distinct (f <$> df))
  ↔ k r ≠ None ∧ ∃ s, s ∈ df ∧ r = f s.
Proof.
  rewrite elem_of_where_. unfold distinct.
  rewrite elem_of_remove_dups, list_elem_of_fmap.
  split; intros [Hk (s & ? & ?)]; (split; [|by exists s]).
  - by apply isNotNull_true.
  - by destruct (k r).
Qed.

Lemma NoDup_dimension_key (df : list A) :
  NoDup (k <$> where_ (λ r, isNotNull (k r)) (distinct (f <$> df)))
  ↔ ∀ s1 s2, s1 ∈ df → s2 ∈ df → k (f s1) ≠ None →
             k (f s1) = k (f s2) → f s1 = f s2.
Proof.
  split.
  - intros Hnd s1 s2 Hs1 Hs2 Hk Heq.
    apply (NoDup_fmap_eq k _ _ _ Hnd); [| |done];
      apply elem_of_dimension; (split; [congruence|eauto]).
  - intros Hdep. apply NoDup_fmap_2_strong.
    + intros r1 r2 [Hk1 (s1 & ? & ->)]%elem_of_dimension
                   [Hk2 (s2 & ? & ->)]%elem_of_dimension Heq.
      by apply Hdep.
    + apply NoDup_where_, NoDup_distinct.
Qed.
End Dimension.

(** X1. The rows of Songs and Artists are exactly the projections, as
    [distinct] emits them (doubles normalised: -0.0 as 0.0, every NaN as
    the one NaN), of the song records that have the table's key: no keyed
    record is lost, no row is made up. *)
Theorem song_dimensions_rows (df : list Song.t) :
  (∀ r, r ∈ songs_table df
        ↔ Songs.song_id r ≠ None
          ∧ ∃ s, s ∈ df ∧ r = normalize_songs (select_songs s))
  ∧ (∀ r, r ∈ artists_table df
          ↔ Artists.artist_id r ≠ None
            ∧ ∃ s, s ∈ df ∧ r = normalize_artists (select_artists s)).
Proof.
  split; intros r.
  - apply (elem_of_dimension (normalize_songs ∘ select_songs) Songs.song_id).
  - apply (elem_of_dimension (normalize_artists ∘ select_artists) Artists.artist_id).
Qed.

(** X2. [distinct] compares whole rows, doubles normalised, so [song_id] is
    a key of Songs exactly when the song records that share a non-null
    [song_id] agree on title, artist_id, year and normalised duration;
    likewise [artist_id] in Artists. Two records that differ only in the
    sign of a zero duration make one row. *)
Theorem song_dimensions_key (df : list Song.t) :
  (NoDup (Songs.song_id <$> songs_table df)
   ↔ ∀ s1 s2, s1 ∈ df → s2 ∈ df → Song.song_id s1 ≠ None →
              Song.song_id s1 = Song.song_id s2 →
              normalize_songs (select_songs s1) = normalize_songs (select_songs s2))
  ∧ (NoDup (Artists.artist_id <$> artists_table df)
     ↔ ∀ s1 s2, s1 ∈ df → s2 ∈ df → Song.artist_id s1 ≠ None →
                Song.artist_id s1 = Song.artist_id s2 →
                normalize_artists (select_artists s1)
                = normalize_artists (select_artists s2)).
Proof.
  split.
  - apply (NoDup_dimension_key (normalize_songs ∘ select_songs) Songs.song_id).
  - apply (NoDup_dimension_key (normalize_artists ∘ select_artists)
             Artists.artist_id).
Qed.

(** X3. The rows of Users are the projections of the "NextSong" records with a
    [userId]; [userId] is a key of the table exactly when no user appears
    with two names, genders or levels: a user seen at two levels has two
    rows. *)
Theorem users_rows_and_key (df : list Log.t) :
  (∀ r, r ∈ users_table (filter_NextSong df)
        ↔ Users.userId r ≠ None
          ∧ ∃ l, l ∈ df ∧ Log.page l = Some "NextSong" ∧ r = select_users l)
  ∧ (NoDup (Users.userId <$> users_table (filter_NextSong df))
     ↔ ∀ l1 l2, l1 ∈ df → l2 ∈ df →
         Log.page l1 = Some "NextSong" → Log.page l2 = Some "NextSong" →
         Log.userId l1 ≠ None → Log.userId l1 = Log.userId l2 →
         select_users l1 = select_users l2).
Proof.
  split.
  - intros r. unfold users_table.
    rewrite (elem_of_dimension select_users Users.userId). split.
    + intros [Hk (l & [Hpg Hl]%filter_NextSong_page & ->)]. eauto 10.
    + intros [Hk (l & Hl & Hpg & ->)]. split; [done|]. exists l.
      split; [|done]. by apply filter_NextSong_page.
  - unfold users_table.
    rewrite (NoDup_dimension_key select_users Users.userId). split.
    + intros H l1 l2 Hl1 Hl2 Hp1 Hp2. apply H; by apply filter_NextSong_page.
    + intros H l1 l2 [? ?]%filter_NextSong_page [? ?]%filter_NextSong_page.
      by apply H.
Qed.

(** ** The join: nulls, several sources, several matches *)

Lemma join_on_null_event (s : Song.t) (l : Event.t) :
  Log.song (Event.row l) = None ∨ Log.artist (Event.row l) = None →
  join_on s l = false.
Proof.
  intros Hnull. destruct (join_on s l) eqn:Hon; [|done].
  apply join_on_true in Hon as (t & a & _ & Ht & _ & Ha).
  destruct Hnull; congruence.
Qed.

Lemma join_on_null_song (s : Song.t) (l : Event.t) :
  Song.title s = None ∨ Song.artist_name s = None → join_on s l = false.
Proof.
  intros Hnull. destruct (join_on s l) eqn:Hon; [|done].
  apply join_on_true in Hon as (t & a & Ht & _ & Ha & _).
  destruct Hnull; congruence.
Qed.

Lemma songplays_table_app (song_df1 song_df2 : list Song.t) (df : list Event.t) :
  songplays_table (song_df1 ++ song_df2) df
  = songplays_table song_df1 df ++ songplays_table song_df2 df.
Proof.
  induction song_df1 as [|s song_df1 IH]; [done|].
  rewrite <- app_comm_cons, !songplays_table_cons, IH. by rewrite app_assoc.
Qed.

Lemma filter_none {A} (P : A → Prop) `{!∀ x, Decision (P x)} (l : list A) :
  (∀ x, ¬ P x) → filter P l = [].
Proof.
  intros Hno. induction l as [|a l IH]; [done|].
  by rewrite filter_cons_False.
Qed.

(** X4. SQL equality is not true of nulls, so an event without song or artist
    joins with no record, and a record without title or artist name joins
    with no event: either can be taken out without changing the table. A
    null title does not match a null song. *)
Theorem null_names_never_join (song_df : list Song.t) (df : list Event.t) :
  (∀ df1 df2 l, df = df1 ++ l :: df2 →
     Log.song (Event.row l) = None ∨ Log.artist (Event.row l) = None →
     songplays_table song_df df = songplays_table song_df (df1 ++ df2))
  ∧ (∀ song_df1 song_df2 s, song_df = song_df1 ++ s :: song_df2 →
       Song.title s = None ∨ Song.artist_name s = None →
       songplays_table song_df df = songplays_table (song_df1 ++ song_df2) df).
Proof.
  split.
  - intros df1 df2 l -> Hnull. unfold songplays_table.
    rewrite (join_drop_unmatched join_on); [done|].
    intros s _. by apply join_on_null_event.
  - intros s1 s2 s -> Hnull.
    rewrite !songplays_table_app, songplays_table_cons. f_equal.
    rewrite filter_none; [done|].
    intros l [Hon _]. by rewrite (join_on_null_song s l Hnull) in Hon.
Qed.

(** X5. The table over two song sources is the table over the first
    together with the table over the second; it is empty when either side of the join
    is, and it has at most one row per pair of a record and an event. *)
Theorem songplays_table_sources (song_df1 song_df2 : list Song.t) (df : list Event.t) :
  songplays_table (song_df1 ++ song_df2) df
    = songplays_table song_df1 df ++ songplays_table song_df2 df
  ∧ songplays_table [] df = []
  ∧ songplays_table song_df1 [] = []
  ∧ length (songplays_table song_df1 df) ≤ length song_df1 * length df.
Proof.
  split; [apply songplays_table_app|]. split; [done|].
  assert (∀ song_df, length (songplays_table song_df df)
                     ≤ length song_df * length df) as Hlen.
  { induction song_df as [|s song_df IH]; [done|].
    rewrite songplays_table_cons, length_app, length_fmap. simpl.
    pose proof (length_filter
      (λ l, join_on s l = true
            ∧ sql_eq (Log.page (Event.row l)) (Some "NextSong") = true) df).
    lia. }
  split; [|apply Hlen].
  induction song_df1 as [|s song_df1 IH]; [done|].
  by rewrite songplays_table_cons, IH.
Qed.

Section LogSide.
Variable int_of_str : string → option Z.
Variable localtime : Z → option Z.

Local Abbreviation withColumns_row' := (withColumns_row int_of_str localtime).
Local Abbreviation withColumns' := (withColumns int_of_str localtime).
Local Abbreviation songplays_plan' := (songplays_plan int_of_str localtime).
Local Abbreviation time_plan' := (time_plan int_of_str localtime).
Local Abbreviation process_log_data' := (process_log_data int_of_str localtime).
Local Abbreviation main' := (main int_of_str localtime).
Local Abbreviation py_int' := (py_int int_of_str).
Local Abbreviation format_datetime' := (format_datetime localtime).

(** ** The UDF columns *)

Lemma withColumns_row_datetime (r : Log.t) (e : Event.t) :
  withColumns_row' r = Some e →
  Event.datetime e = (Event.start_time e `div` 86400000000)%Z.
Proof.
  unfold withColumns_row, get_timestamp, get_datetime.
  destruct (py_int' (Log.ts r)) as [n|]; simpl; [|done].
  destruct (format_datetime' n) as [d|]; simpl; [|done].
  by intros [= <-].
Qed.

Lemma withColumns_row_is_Some (r : Log.t) :
  is_Some (withColumns_row' r)
  ↔ ∃ n, py_int' (Log.ts r) = Some n ∧ is_Some (localtime (n `div` 1000)%Z).
Proof.
  unfold withColumns_row, get_timestamp, get_datetime.
  destruct (py_int' (Log.ts r)) as [n|]; simpl.
  - rewrite format_datetime_eq.
    destruct (localtime (n `div` 1000)%Z) as [w|] eqn:Hw; simpl.
    + split; [intros _; exists n; rewrite Hw; eauto|eauto].
    + split; [by intros [? ?]|]. intros (? & [= <-] & [? ?]). congruence.
  - split; [by intros [? ?]|]. by intros (? & ? & _).
Qed.

Lemma withColumns_rows (df : list Log.t) (events : list Event.t) :
  withColumns' df = Ok events → Event.row <$> events = df.
Proof.
  rewrite withColumns_Ok, mapM_Some.
  induction 1 as [|r e df events Hr _ IH]; [done|].
  destruct (withColumns_row_Some _ _ _ _ Hr) as [Hrow _].
  rewrite fmap_cons. by f_equal.
Qed.

(** X6. The two [withColumn] calls keep the frame's rows, one event per row;
    [datetime] is the calendar day of [start_time]; and they compute for
    the whole frame exactly when every row's [ts] converts to an integer
    whose second the platform can show in local time. *)
Theorem withColumns_spec (df : list Log.t) :
  (∀ events, withColumns' df = Ok events →
     Event.row <$> events = df
     ∧ Forall (λ e, Event.datetime e
                    = (Event.start_time e `div` 86400000000)%Z) events)
  ∧ ((∃ events, withColumns' df = Ok events)
     ↔ Forall (λ r, ∃ n, py_int' (Log.ts r) = Some n
                         ∧ is_Some (localtime (n `div` 1000)%Z)) df).
Proof.
  split.
  - intros events Hev. split; [by apply withColumns_rows|].
    apply Forall_forall. intros e He.
    destruct (withColumns_elem _ _ _ _ e Hev He) as [_ Hrow].
    by apply (withColumns_row_datetime (Event.row e)).
  - transitivity (is_Some (mapM withColumns_row' df)).
    + unfold withColumns. destruct (mapM _ df) as [k|]; simpl.
      * split; [eauto|eauto].
      * split; [by intros [? ?]|by intros [? ?]].
    + rewrite mapM_is_Some. apply Forall_proper; [|done].
      intros r. apply withColumns_row_is_Some.
Qed.

(** ** The time table *)

(** X7. The time table has one row for each distinct [ts] of the filtered log:
    [ts] is a key of the table, and every event has its row. *)
Theorem time_table_key (df : list Log.t) (events : list Event.t) :
  withColumns' df = Ok events →
  NoDup (Time.ts <$> time_table events)
  ∧ (∀ r, r ∈ df → ∃ t, t ∈ time_table events ∧ Time.ts t = Log.ts r)
  ∧ (∀ t, t ∈ time_table events → ∃ r, r ∈ df ∧ Time.ts t = Log.ts r).
Proof.
  intros Hev.
  assert (∀ t, t ∈ time_table events ↔ ∃ e, e ∈ events ∧ t = select_time e) as Hin.
  { intros t. unfold time_table, distinct.
    rewrite elem_of_remove_dups, list_elem_of_fmap.
    split; intros (e & ? & ?); by exists e. }
  split; [|split].
  - apply NoDup_fmap_2_strong; [|apply NoDup_distinct].
    intros t1 t2 (e1 & He1 & ->)%Hin (e2 & He2 & ->)%Hin Hts. simpl in Hts.
    destruct (withColumns_elem _ _ _ _ e1 Hev He1) as [_ H1].
    destruct (withColumns_elem _ _ _ _ e2 Hev He2) as [_ H2].
    pose proof (withColumns_row_ts int_of_str localtime _ _ Hts) as Heq.
    rewrite H1, H2 in Heq. simpl in Heq. congruence.
  - intros r Hr.
    rewrite <- (withColumns_rows df events Hev) in Hr. apply list_elem_of_fmap in Hr as (e & -> & He).
    exists (select_time e). split; [|done]. apply Hin. eauto.
  - intros t (e & He & ->)%Hin.
    destruct (withColumns_elem _ _ _ _ e Hev He) as [Hr _]. eauto.
Qed.

(** ** The fact table against the dimension tables *)

Lemma songplays_plan_Ok (song_df : list Song.t) (log_df : list Log.t)
    (rows : list Songplays.t) :
  songplays_plan' song_df log_df = Ok rows →
  ∃ events, withColumns' (filter_NextSong log_df) = Ok events
            ∧ rows = songplays_table song_df
                       (drop_duplicates Event.start_time events).
Proof.
  unfold songplays_plan.
  destruct (withColumns' (filter_NextSong log_df)) as [events|]; simpl; [|done].
  intros [= <-]. by exists events.
Qed.

Lemma songplays_row_origin (song_df : list Song.t) (log_df : list Log.t)
    (rows : list Songplays.t) (r : Songplays.t) :
  songplays_plan' song_df log_df = Ok rows → r ∈ rows →
  ∃ events s l, withColumns' (filter_NextSong log_df) = Ok events
    ∧ s ∈ song_df ∧ l ∈ events ∧ Event.row l ∈ filter_NextSong log_df
    ∧ join_on s l = true ∧ r = select_songplays (s, l).
Proof.
  intros (events & Hev & ->)%songplays_plan_Ok
         (s & l & Hs & Hl & Hon & _ & ->)%elem_of_songplays_table.
  apply drop_duplicates_subseteq in Hl.
  destruct (withColumns_elem _ _ _ _ l Hev Hl) as [Hrow _].
  by exists events, s, l.
Qed.

(** X8. Every row of Songplays has its row in Time: one with the same
    [start_time], and with the row's [year] and [month]. *)
Theorem songplays_rows_have_time (song_df : list Song.t) (log_df : list Log.t)
    (rows : list Songplays.t) (times : list Time.t) (r : Songplays.t) :
  songplays_plan' song_df log_df = Ok rows →
  time_plan' log_df = Ok times →
  r ∈ rows →
  ∃ t, t ∈ times
       ∧ Time.start_time t = Songplays.start_time r
       ∧ Time.year t = Songplays.year r
       ∧ Time.month t = Songplays.month r.
Proof.
  intros Hrows Htimes Hr.
  destruct (songplays_row_origin _ _ _ _ Hrows Hr)
    as (events & s & l & Hev & _ & Hl & _ & _ & ->).
  unfold time_plan in Htimes. rewrite Hev in Htimes. injection Htimes as <-.
  exists (select_time l). split; [|done].
  unfold time_table, distinct. rewrite elem_of_remove_dups.
  by apply list_elem_of_fmap_2.
Qed.

(** X9. The identifiers of a Songplays row that are not null are found in the
    dimension tables: [song_id] in Songs, [artist_id] in Artists, and
    [userId] in Users, there with the row's [level]. *)
Theorem songplays_rows_have_dimensions (song_df : list Song.t) (log_df : list Log.t)
    (rows : list Songplays.t) (r : Songplays.t) :
  songplays_plan' song_df log_df = Ok rows →
  r ∈ rows →
  (Songplays.song_id r ≠ None →
     ∃ x, x ∈ songs_table song_df ∧ Songs.song_id x = Songplays.song_id r)
  ∧ (Songplays.artist_id r ≠ None →
       ∃ x, x ∈ artists_table song_df
            ∧ Artists.artist_id x = Songplays.artist_id r)
  ∧ (Songplays.userId r ≠ None →
       ∃ x, x ∈ users_table (filter_NextSong log_df)
            ∧ Users.userId x = Songplays.userId r
            ∧ Users.level x = Songplays.level r).
Proof.
  intros Hrows Hr.
  destruct (songplays_row_origin _ _ _ _ Hrows Hr)
    as (events & s & l & Hev & Hs & Hl & Hrow & _ & ->).
  simpl. split; [|split]; intros Hkey.
  - exists (normalize_songs (select_songs s)). split; [|done].
    apply (elem_of_dimension (normalize_songs ∘ select_songs) Songs.song_id).
    split; [done|]. by exists s.
  - exists (normalize_artists (select_artists s)). split; [|done].
    apply (elem_of_dimension (normalize_artists ∘ select_artists)
             Artists.artist_id).
    split; [done|]. by exists s.
  - exists (select_users (Event.row l)). split; [|done].
    apply (elem_of_dimension select_users Users.userId). eauto.
Qed.

(** X10. The rows of Songplays for a retained event are as many as the song
    records with the event's song as title and its artist as artist name
    (SQL equality: both sides non-null): none when there is no such
    record, several when distinct songs share title and artist name. *)
Theorem songplays_rows_per_event (song_df : list Song.t) (log_df : list Log.t)
    (events : list Event.t) (e : Event.t) :
  withColumns' (filter_NextSong log_df) = Ok events →
  e ∈ drop_duplicates Event.start_time events →
  ∃ rows, songplays_plan' song_df log_df = Ok rows
    ∧ length (filter (λ r, Songplays.start_time r = Event.start_time e) rows)
      = length (filter (λ s, Song.title s = Log.song (Event.row e)
                             ∧ Log.song (Event.row e) ≠ None
                             ∧ Song.artist_name s = Log.artist (Event.row e)
                             ∧ Log.artist (Event.row e) ≠ None) song_df).
Proof.
  intros Hev He. unfold songplays_plan. rewrite Hev. eexists. split; [done|].
  rewrite songplays_rows_of_event; [|apply NoDup_drop_duplicates|done|].
  - apply length_filter_ext. intros s _. rewrite join_on_true. split.
    + intros (t & a & -> & -> & -> & ->). done.
    + intros (Ht & Hs & Ha & Hl).
      destruct (Log.song (Event.row e)) as [t|]; [|done].
      destruct (Log.artist (Event.row e)) as [a|]; [|done].
      by exists t, a.
  - apply drop_duplicates_subseteq in He.
    destruct (withColumns_elem _ _ _ _ e Hev He) as [Hin _].
    by apply filter_NextSong_page in Hin as [? _].
Qed.

(** ** A log without song plays *)

(** X11. When the log has records (so that its frame has columns) but none
    of them has the page "NextSong", the three frames of
    [process_log_data] are empty and the UDF never runs: the [ts] of the
    other records is not looked at. *)
Theorem no_NextSong_empty_tables (log_df : list Log.t) :
  log_df ≠ [] →
  (∀ r, r ∈ log_df → Log.page r ≠ Some "NextSong") →
  users_table (filter_NextSong log_df) = []
  ∧ time_plan' log_df = Ok []
  ∧ ∀ song_df, songplays_plan' song_df log_df = Ok [].
Proof.
  intros _ Hno. assert (filter_NextSong log_df = []) as Hnil.
  { unfold filter_NextSong, where_. induction log_df as [|r df IH]; [done|].
    rewrite filter_cons_False.
    - apply IH. intros r' Hr'. apply Hno. by right.
    - intros (x & Hpg & [= <-])%sql_eq_true. by apply (Hno r); [left|]. }
  unfold time_plan, songplays_plan. rewrite Hnil. split; [done|].
  split; [done|]. intros song_df. simpl. f_equal.
  induction song_df as [|s song_df IH]; [done|].
  by rewrite songplays_table_cons, IH.
Qed.

(** ** Runs of [main] *)

Lemma policy_paths_free (st : Store) :
  (∀ t cols, (t, cols) ∈ spec_partition_policy → st !! (output_data +:+ t) = None)
  ↔ st !! (output_data +:+ "songs") = None
    ∧ st !! (output_data +:+ "artists") = None
    ∧ st !! (output_data +:+ "users") = None
    ∧ st !! (output_data +:+ "time") = None
    ∧ st !! (output_data +:+ "songplays") = None.
Proof.
  unfold spec_partition_policy. split.
  - intros H. repeat split; eapply H; rewrite !elem_of_cons; eauto 10.
  - intros (? & ? & ? & ? & ?) t cols. rewrite !elem_of_cons, elem_of_nil.
    intros [[= -> _]|[[= -> _]|[[= -> _]|[[= -> _]|[[= -> _]|[]]]]]]; done.
Qed.

Lemma process_log_data_udf_raises (spark : SparkSession) (i o : string)
    (st : Store) (e : Exn) :
  withColumns' (filter_NextSong (read_json_logs spark (i +:+ "log-data/")))
    = Raise e →
  ∃ e', (process_log_data' spark i o st).1 = Raise e'.
Proof.
  intros Hraise. unfold process_log_data. rewrite Hraise. unfold bind.
  rewrite parquet_ErrorIfExists by done.
  destruct (st !! (o +:+ "users")); simpl; [eauto|].
  rewrite parquet_ErrorIfExists by done.
  destruct (_ !! (o +:+ "time")); simpl; eauto.
Qed.

(** The store that the three writes before the UDF leave on a store where
    their paths are free. *)
Lemma main_until_time (spark : SparkSession) (st : Store) :
  st !! (output_data +:+ "songs") = None →
  st !! (output_data +:+ "artists") = None →
  st !! (output_data +:+ "users") = None →
  let song_df := read_json_songs spark (input_data +:+ "song_data/*/*/*/*.json") in
  let log_df := read_json_logs spark (input_data +:+ "log-data/") in
  let st3 : Store :=
    <[output_data +:+ "users" :=
        mkDataset [] (RUsers <$> users_table (filter_NextSong log_df))]>
      (<[output_data +:+ "artists" :=
           mkDataset [] (RArtists <$> artists_table song_df)]>
         (<[output_data +:+ "songs" :=
              mkDataset ["year"; "artist_id"] (RSongs <$> songs_table song_df)]> st)) in
  main' spark st =
    (parquet (partitionBy ["year"; "month"]
                (write (fmap (M:=list) RTime <$> time_plan' log_df)))
             (output_data +:+ "time") ;;;
     parquet (partitionBy ["year"; "month"]
                (write (fmap (M:=list) RSongplays <$> songplays_plan' song_df log_df)))
             (output_data +:+ "songplays")) st3.
Proof.
  intros Hsongs Hartists Husers. simpl.
  unfold main, process_song_data. unfold bind at 1 2.
  rewrite parquet_ErrorIfExists, Hsongs by done. simpl.
  rewrite parquet_ErrorIfExists by done.
  rewrite lookup_insert_ne, Hartists by (by apply output_path_ne). simpl.
  pose proof (process_log_data_plans int_of_str localtime spark input_data output_data)
    as Heq. simpl in Heq. rewrite Heq. clear Heq.
  unfold bind at 1. rewrite parquet_ErrorIfExists by done.
  rewrite !lookup_insert_ne, Husers by (by apply output_path_ne). done.
Qed.

Lemma main_songs_exists (spark : SparkSession) (st : Store) :
  is_Some (st !! (output_data +:+ "songs")) →
  main' spark st = (Raise (AnalysisException (output_data +:+ "songs")), st).
Proof.
  intros [d Hd]. unfold main, process_song_data. unfold bind.
  by rewrite parquet_ErrorIfExists, Hd by done.
Qed.

Lemma main_stores_songs (spark : SparkSession) (st : Store) :
  is_Some ((main' spark st).2 !! (output_data +:+ "songs")).
Proof.
  destruct (st !! (output_data +:+ "songs")) as [d|] eqn:Hd.
  - rewrite main_songs_exists by eauto. simpl. eauto.
  - unfold main. match goal with |- context [(?m ;;; ?k) st] =>
      destruct (seq_store m k st) as [->| ->];
      [|eapply mk_is_Some, process_log_data_preserves_existing] end.
    all: unfold process_song_data, bind;
      rewrite parquet_ErrorIfExists, Hd by done; simpl;
      rewrite parquet_ErrorIfExists by done;
      destruct (_ !! (output_data +:+ "artists")); simpl.
    all: try (rewrite lookup_insert_ne by (by apply output_path_ne));
      rewrite lookup_insert_eq; eauto.
Qed.

Lemma main_Ok_inv (spark : SparkSession) (st : Store) :
  (main' spark st).1 = Ok () →
  (∀ t cols, (t, cols) ∈ spec_partition_policy →
             st !! (output_data +:+ t) = None)
  ∧ ∃ events,
      withColumns' (filter_NextSong
                      (read_json_logs spark (input_data +:+ "log-data/")))
      = Ok events.
Proof.
  intros HOk. split.
  - intros t cols Hin.
    destruct (st !! (output_data +:+ t)) as [d|] eqn:Hd; [|done].
    destruct (main_raises_if_exists int_of_str localtime spark t cols Hin st)
      as [e He]; [eauto|congruence].
  - destruct (withColumns' _) as [events|e] eqn:Hev; [eauto|].
    unfold main in HOk. destruct (seq_Ok _ _ _ HOk) as [_ Heq].
    destruct (process_log_data_udf_raises spark input_data output_data
                (process_song_data spark input_data output_data st).2 e Hev)
      as [e' He'].
    rewrite Heq in HOk. congruence.
Qed.

Lemma main_store_Ok (spark : SparkSession) (st : Store) (events : list Event.t) :
  (∀ t cols, (t, cols) ∈ spec_partition_policy →
             st !! (output_data +:+ t) = None) →
  let song_df := read_json_songs spark (input_data +:+ "song_data/*/*/*/*.json") in
  let log_df := read_json_logs spark (input_data +:+ "log-data/") in
  withColumns' (filter_NextSong log_df) = Ok events →
  main' spark st =
    (Ok (),
     <[output_data +:+ "songplays" :=
         mkDataset ["year"; "month"]
           (RSongplays <$> songplays_table song_df
                             (drop_duplicates Event.start_time events))]>
       (<[output_data +:+ "time" :=
            mkDataset ["year"; "month"] (RTime <$> time_table events)]>
          (<[output_data +:+ "users" :=
               mkDataset [] (RUsers <$> users_table (filter_NextSong log_df))]>
             (<[output_data +:+ "artists" :=
                  mkDataset [] (RArtists <$> artists_table song_df)]>
                (<[output_data +:+ "songs" :=
                     mkDataset ["year"; "artist_id"]
                       (RSongs <$> songs_table song_df)]> st))))).
Proof.
  intros (Hs & Ha & Hu & Ht & Hp)%policy_paths_free song_df log_df Hev.
  pose proof (main_until_time spark st Hs Ha Hu) as Heq. simpl in Heq.
  rewrite Heq. clear Heq. unfold time_plan, songplays_plan.
  subst song_df log_df. rewrite Hev.
  unfold bind. rewrite parquet_ErrorIfExists by done.
  rewrite !lookup_insert_ne, Ht by (by apply output_path_ne). simpl.
  rewrite parquet_ErrorIfExists by done.
  by rewrite !lookup_insert_ne, Hp by (by apply output_path_ne).
Qed.

Lemma holds_insert (st : Store) (p : string) (cols : list string) (rs : list Row) :
  holds (<[p := mkDataset cols rs]> st) p cols rs.
Proof. exists (mkDataset cols rs). by rewrite lookup_insert_eq. Qed.

Lemma holds_insert_ne (st : Store) (p q : string) (d : Dataset)
    (cols : list string) (rs : list Row) :
  p ≠ q → holds st p cols rs → holds (<[q := d]> st) p cols rs.
Proof.
  intros Hne (d' & ? & ? & ?). exists d'. by rewrite lookup_insert_ne.
Qed.

Lemma adds_insert (st : Store) (p : string) (cols : list string) (rs : list Row) :
  st !! p = None → adds st (<[p := mkDataset cols rs]> st) p cols rs.
Proof.
  intros Hp. split; [done|]. split; [apply holds_insert|].
  intros q Hq. by rewrite lookup_insert_ne.
Qed.

Lemma drop_duplicates_deduplicated {A} `{EqDecision K} (k : A → K) (df : list A) :
  deduplicated_by k df (drop_duplicates k df).
Proof.
  split; [apply drop_duplicates_subseteq|].
  split; [apply drop_duplicates_key|apply NoDup_drop_duplicates].
Qed.

(** X12. [main] cannot be run twice onto one output. After a first run that
    returned, or that raised in the UDF or on one of its output paths, a
    second run over the store it left, on any input, raises and stores
    nothing. *)
Theorem main_rerun_raises (spark spark' : SparkSession) (st : Store) :
  (main' spark st).1 = Ok ()
  ∨ (main' spark st).1 = Raise PythonException
  ∨ (∃ t cols, (t, cols) ∈ spec_partition_policy
               ∧ (main' spark st).1 = Raise (AnalysisException (output_data +:+ t))) →
  ∃ e, main' spark' (main' spark st).2 = (Raise e, (main' spark st).2).
Proof.
  intros _. eexists. apply main_songs_exists, main_stores_songs.
Qed.

(** X13. [main] returns only if none of the five output paths exists
    beforehand and the UDF columns compute for every "NextSong" record of
    the log: one existing path, or one record whose [ts] does not convert,
    and the run raises. *)
Theorem main_returns_only_if (spark : SparkSession) (st : Store) :
  (main' spark st).1 = Ok () →
  (∀ t cols, (t, cols) ∈ spec_partition_policy →
             st !! (output_data +:+ t) = None)
  ∧ ∃ events,
      withColumns' (filter_NextSong
                      (read_json_logs spark (input_data +:+ "log-data/")))
      = Ok events.
Proof. apply main_Ok_inv. Qed.

(** X14. What a run that returns has stored: the five tables, each under its
    path with its partition columns, and nothing else changed. The rows
    are given up to their order. Time is taken over all events, Songplays
    is the join over a deduplication of the events by [start_time]. *)
Theorem main_output (spark : SparkSession) (st : Store) :
  (main' spark st).1 = Ok () →
  let song_df := read_json_songs spark (input_data +:+ "song_data/*/*/*/*.json") in
  let log_df := read_json_logs spark (input_data +:+ "log-data/") in
  let st' := (main' spark st).2 in
  ∃ events kept,
    withColumns' (filter_NextSong log_df) = Ok events
    ∧ deduplicated_by Event.start_time events kept
    ∧ holds st' (output_data +:+ "songs") ["year"; "artist_id"]
            (RSongs <$> songs_table song_df)
    ∧ holds st' (output_data +:+ "artists") [] (RArtists <$> artists_table song_df)
    ∧ holds st' (output_data +:+ "users") []
            (RUsers <$> users_table (filter_NextSong log_df))
    ∧ holds st' (output_data +:+ "time") ["year"; "month"]
            (RTime <$> time_table events)
    ∧ holds st' (output_data +:+ "songplays") ["year"; "month"]
            (RSongplays <$> songplays_table song_df kept)
    ∧ ∀ q, (∀ t cols, (t, cols) ∈ spec_partition_policy → q ≠ output_data +:+ t) →
           st' !! q = st !! q.
Proof.
  intros HOk song_df log_df st'.
  destruct (main_Ok_inv spark st HOk) as [Hfree [events Hev]].
  exists events, (drop_duplicates Event.start_time events).
  split; [done|]. split; [apply drop_duplicates_deduplicated|].
  subst st'. rewrite (main_store_Ok spark st events Hfree Hev). simpl.
  do 5 (split; [repeat (apply holds_insert_ne; [by apply output_path_ne|]);
                apply holds_insert|]).
  intros q Hq. unfold spec_partition_policy in Hq.
  rewrite !lookup_insert_ne; [done|..]; intros Heq; symmetry in Heq;
    revert Heq; eapply Hq; rewrite !elem_of_cons; eauto 10.
Qed.

(** X15. A run is not all-or-nothing. When the UDF columns raise and the paths
    of songs, artists, users and time are free, [main] raises the UDF's
    exception after it has stored Songs, Artists and Users; Time and
    Songplays are not stored. *)
Theorem main_partial_output (spark : SparkSession) (st : Store) (e : Exn) :
  st !! (output_data +:+ "songs") = None →
  st !! (output_data +:+ "artists") = None →
  st !! (output_data +:+ "users") = None →
  st !! (output_data +:+ "time") = None →
  let song_df := read_json_songs spark (input_data +:+ "song_data/*/*/*/*.json") in
  let log_df := read_json_logs spark (input_data +:+ "log-data/") in
  withColumns' (filter_NextSong log_df) = Raise e →
  main' spark st =
    (Raise e,
     <[output_data +:+ "users" :=
         mkDataset [] (RUsers <$> users_table (filter_NextSong log_df))]>
       (<[output_data +:+ "artists" :=
            mkDataset [] (RArtists <$> artists_table song_df)]>
          (<[output_data +:+ "songs" :=
               mkDataset ["year"; "artist_id"]
                 (RSongs <$> songs_table song_df)]> st))).
Proof.
  intros Hs Ha Hu Ht song_df log_df Hev.
  pose proof (main_until_time spark st Hs Ha Hu) as Heq. simpl in Heq.
  rewrite Heq. clear Heq. unfold time_plan. subst song_df log_df. rewrite Hev.
  unfold bind. rewrite parquet_ErrorIfExists by done.
  by rewrite !lookup_insert_ne, Ht by (by apply output_path_ne).
Qed.

End LogSide.

(** ** The outcomes of the two jobs *)

Lemma process_song_data_run (spark : SparkSession) (i o : string) (st : Store) :
  let df := read_json_songs spark (i +:+ "song_data/*/*/*/*.json") in
  let songs := mkDataset ["year"; "artist_id"] (RSongs <$> songs_table df) in
  let artists := mkDataset [] (RArtists <$> artists_table df) in
  process_song_data spark i o st =
    match st !! (o +:+ "songs"), st !! (o +:+ "artists") with
    | Some _, _ => (Raise (AnalysisException (o +:+ "songs")), st)
    | None, Some _ =>
        (Raise (AnalysisException (o +:+ "artists")), <[o +:+ "songs" := songs]> st)
    | None, None =>
        (Ok (), <[o +:+ "artists" := artists]> (<[o +:+ "songs" := songs]> st))
    end.
Proof.
  simpl. unfold process_song_data, bind.
  rewrite parquet_ErrorIfExists by done.
  destruct (st !! (o +:+ "songs")); [done|]. simpl.
  rewrite parquet_ErrorIfExists by done.
  rewrite lookup_insert_ne by (by apply output_path_ne).
  by destruct (st !! (o +:+ "artists")).
Qed.

Lemma process_log_data_run (int_of_str : string → option Z)
    (localtime : Z → option Z) (spark : SparkSession) (i o : string) (st : Store) :
  let log_df := read_json_logs spark (i +:+ "log-data/") in
  let song_df := read_json_songs spark (i +:+ "song_data/*/*/*/*.json") in
  let st1 : Store :=
    <[o +:+ "users" :=
        mkDataset [] (RUsers <$> users_table (filter_NextSong log_df))]> st in
  process_log_data int_of_str localtime spark i o st =
    match st !! (o +:+ "users") with
    | Some _ => (Raise (AnalysisException (o +:+ "users")), st)
    | None =>
        match st !! (o +:+ "time") with
        | Some _ => (Raise (AnalysisException (o +:+ "time")), st1)
        | None =>
            match withColumns int_of_str localtime (filter_NextSong log_df) with
            | Raise e => (Raise e, st1)
            | Ok events =>
                let st2 : Store :=
                  <[o +:+ "time" :=
                      mkDataset ["year"; "month"] (RTime <$> time_table events)]> st1 in
                match st !! (o +:+ "songplays") with
                | Some _ => (Raise (AnalysisException (o +:+ "songplays")), st2)
                | None =>
                    (Ok (),
                     <[o +:+ "songplays" :=
                         mkDataset ["year"; "month"]
                           (RSongplays <$> songplays_table song_df
                              (drop_duplicates Event.start_time events))]> st2)
                end
            end
        end
    end.
Proof.
  simpl. unfold process_log_data, bind.
  rewrite parquet_ErrorIfExists by done.
  destruct (st !! (o +:+ "users")); [done|]. simpl.
  rewrite parquet_ErrorIfExists by done.
  rewrite lookup_insert_ne by (by apply output_path_ne).
  destruct (st !! (o +:+ "time")); [done|]. simpl.
  destruct (withColumns int_of_str localtime _) as [events|e]; [|done]. simpl.
  rewrite parquet_ErrorIfExists by done.
  rewrite !lookup_insert_ne by (by apply output_path_ne).
  by destruct (st !! (o +:+ "songplays")).
Qed.

Lemma withColumns_raises (int_of_str : string → option Z)
    (localtime : Z → option Z) (df : list Log.t) (e : Exn) :
  withColumns int_of_str localtime df = Raise e → e = PythonException.
Proof.
  unfold withColumns, run_udf. destruct (mapM _ df); [done|]. by intros [= <-].
Qed.

(** X16. What [process_song_data] has stored, by the way it ended. If it
    raised on the songs path, that path existed and nothing was stored; if
    it raised on the artists path, the songs path was free and Songs has
    been added, and nothing else changed; if it returned, both paths were
    free and Songs, then Artists, have been added. *)
Theorem process_song_data_outcomes (spark : SparkSession) (i o : string) (st : Store) :
  let df := read_json_songs spark (i +:+ "song_data/*/*/*/*.json") in
  let run := process_song_data spark i o st in
  (run.1 = Raise (AnalysisException (o +:+ "songs")) →
     is_Some (st !! (o +:+ "songs")) ∧ run.2 = st)
  ∧ (run.1 = Raise (AnalysisException (o +:+ "artists")) →
       is_Some (st !! (o +:+ "artists"))
       ∧ adds st run.2 (o +:+ "songs") ["year"; "artist_id"]
              (RSongs <$> songs_table df))
  ∧ (run.1 = Ok () →
       ∃ st1, adds st st1 (o +:+ "songs") ["year"; "artist_id"]
                   (RSongs <$> songs_table df)
              ∧ adds st1 run.2 (o +:+ "artists") [] (RArtists <$> artists_table df)).
Proof.
  simpl. pose proof (process_song_data_run spark i o st) as Hrun. simpl in Hrun.
  rewrite Hrun. clear Hrun.
  assert (o +:+ "songs" ≠ o +:+ "artists") as Hne by (by apply output_path_ne).
  destruct (st !! (o +:+ "songs")) as [d|] eqn:Hs;
    [|destruct (st !! (o +:+ "artists")) as [d|] eqn:Ha]; simpl.
  - split; [eauto|]. split; [|done]. intros [= Heq]. by destruct Hne.
  - split; [intros [= Heq]; by destruct Hne|]. split; [|done].
    intros _. split; [eauto|]. by apply adds_insert.
  - split; [done|]. split; [done|]. intros _. eexists. split.
    + by apply adds_insert.
    + apply adds_insert. by rewrite lookup_insert_ne.
Qed.

(** X17. What [process_log_data] has stored, by the way it ended. It writes
    users, then time, then songplays, and what was written before a
    failure stays. If it raised on the users path, nothing was stored; if
    it raised on the time path or in the UDF, Users has been added and
    nothing else changed; if it raised on the songplays path, the UDF
    columns computed and Users and Time have been added. *)
Theorem process_log_data_outcomes (int_of_str : string → option Z)
    (localtime : Z → option Z) (spark : SparkSession) (i o : string) (st : Store) :
  let log_df := read_json_logs spark (i +:+ "log-data/") in
  let run := process_log_data int_of_str localtime spark i o st in
  (run.1 = Raise (AnalysisException (o +:+ "users")) →
     is_Some (st !! (o +:+ "users")) ∧ run.2 = st)
  ∧ (run.1 = Raise (AnalysisException (o +:+ "time"))
     ∨ run.1 = Raise PythonException →
       adds st run.2 (o +:+ "users") []
            (RUsers <$> users_table (filter_NextSong log_df)))
  ∧ (run.1 = Raise (AnalysisException (o +:+ "songplays")) →
       ∃ events st1,
         withColumns int_of_str localtime (filter_NextSong log_df) = Ok events
         ∧ adds st st1 (o +:+ "users") []
                (RUsers <$> users_table (filter_NextSong log_df))
         ∧ adds st1 run.2 (o +:+ "time") ["year"; "month"]
                (RTime <$> time_table events)).
Proof.
  simpl.
  pose proof (process_log_data_run int_of_str localtime spark i o st) as Hrun.
  simpl in Hrun. rewrite Hrun. clear Hrun.
  assert (o +:+ "users" ≠ o +:+ "time") as Hut by (by apply output_path_ne).
  assert (o +:+ "users" ≠ o +:+ "songplays") as Hus by (by apply output_path_ne).
  assert (o +:+ "time" ≠ o +:+ "songplays") as Hts by (by apply output_path_ne).
  destruct (st !! (o +:+ "users")) as [d|] eqn:Hu; simpl.
  { split; [eauto|]. split; [intros [[= ?]|[= ?]]; by destruct Hut|].
    intros [= ?]. by destruct Hus. }
  destruct (st !! (o +:+ "time")) as [d|] eqn:Ht; simpl.
  { split; [intros [= ?]; by destruct Hut|].
    split; [intros _; by apply adds_insert|]. intros [= ?]. by destruct Hts. }
  destruct (withColumns int_of_str localtime _) as [events|e] eqn:Hev; simpl.
  - destruct (st !! (o +:+ "songplays")) as [d|] eqn:Hp; simpl.
    + split; [intros [= ?]; by destruct Hus|].
      split; [intros [[= ?]|[= ?]]; by destruct Hts|].
      intros _. exists events. eexists. split; [done|]. split.
      * by apply adds_insert.
      * apply adds_insert. by rewrite lookup_insert_ne.
    + split; [done|]. split; [by intros [|]|done].
  - apply withColumns_raises in Hev as ->.
    split; [done|]. split; [intros _; by apply adds_insert|done].
Qed.

(** ** The calendar columns *)

Lemma civil_from_days_inverse (z : Z) :
  Calendar.days_from_civil (Calendar.year z) (Calendar.month z)
                           (Calendar.dayofmonth z) = z.
Proof.
  unfold Calendar.days_from_civil, Calendar.year, Calendar.month,
    Calendar.dayofmonth, Calendar.civil_from_days. simpl.
  repeat case_bool_decide; Z.div_mod_to_equations; lia.
Qed.

Lemma civil_from_days_ranges (z : Z) :
  (1 ≤ Calendar.month z ≤ 12 ∧ 1 ≤ Calendar.dayofmonth z ≤ 31)%Z.
Proof.
  unfold Calendar.month, Calendar.dayofmonth, Calendar.civil_from_days. simpl.
  repeat case_bool_decide; Z.div_mod_to_equations; lia.
Qed.

Lemma day_of_year_range (z : Z) :
  (0 ≤ z - Calendar.days_from_civil (Calendar.year z) 1 1 ≤ 365)%Z.
Proof.
  unfold Calendar.days_from_civil, Calendar.year, Calendar.civil_from_days. simpl.
  repeat case_bool_decide; Z.div_mod_to_equations; lia.
Qed.

Lemma weekofyear_range (z : Z) : (1 ≤ Calendar.weekofyear z ≤ 53)%Z.
Proof.
  unfold Calendar.weekofyear.
  pose proof (day_of_year_range (z - (Z.modulo (z + 3) 7 + 1) + 4)).
  Z.div_mod_to_equations; lia.
Qed.

(** X18. The calendar columns of every Time row are those of its
    [datetime]: (year, month, day) is the civil date of that day number,
    which is the one date that counts back to it, with the month in 1..12
    and the day in 1..31; the week is in 1..53 and the weekday in 1..7. *)
Theorem time_table_columns (events : list Event.t) :
  Forall (λ t,
    Calendar.civil_from_days (Time.datetime t)
      = (Time.year t, Time.month t, Time.day t)
    ∧ Calendar.days_from_civil (Time.year t) (Time.month t) (Time.day t)
      = Time.datetime t
    ∧ 1 ≤ Time.month t ≤ 12 ∧ 1 ≤ Time.day t ≤ 31
    ∧ 1 ≤ Time.week t ≤ 53 ∧ 1 ≤ Time.weekday t ≤ 7)%Z (time_table events).
Proof.
  apply Forall_forall. intros t. unfold time_table, distinct.
  rewrite elem_of_remove_dups, list_elem_of_fmap. intros (e & -> & _). simpl.
  split.
  { unfold Calendar.year, Calendar.month, Calendar.dayofmonth.
    by destruct (Calendar.civil_from_days (Event.datetime e)) as [[y m] d]. }
  split; [apply civil_from_days_inverse|].
  pose proof (civil_from_days_ranges (Event.datetime e)).
  pose proof (weekofyear_range (Event.datetime e)).
  repeat split; try tauto.
  - unfold Calendar.dayofweek. Z.div_mod_to_equations; lia.
  - unfold Calendar.dayofweek. Z.div_mod_to_equations; lia.
Qed.

(** X19. The partition columns of Songplays are the year and the month of the
    day of [start_time], and the month is in 1..12. *)
Theorem songplays_partition_columns (int_of_str : string → option Z)
    (localtime : Z → option Z) (song_df : list Song.t) (log_df : list Log.t)
    (rows : list Songplays.t) (r : Songplays.t) :
  songplays_plan int_of_str localtime song_df log_df = Ok rows →
  r ∈ rows →
  (Songplays.year r = Calendar.year (Songplays.start_time r `div` 86400000000)
   ∧ Songplays.month r = Calendar.month (Songplays.start_time r `div` 86400000000)
   ∧ 1 ≤ Songplays.month r ≤ 12)%Z.
Proof.
  intros Hrows Hr.
  destruct (songplays_row_origin _ _ _ _ _ _ Hrows Hr)
    as (events & s & l & Hev & _ & Hl & _ & _ & ->).
  destruct (withColumns_elem _ _ _ _ l Hev Hl) as [_ Hrow].
  apply withColumns_row_datetime in Hrow. simpl. rewrite <- Hrow.
  split; [done|]. split; [done|].
  apply civil_from_days_ranges.
Qed.

(** * Examples for the further properties *)

Lemma time_table_key_witness :
  withColumns int_of_digits utc [toms_diner_event; same_ms_event]
    = Ok [toms_diner_played; same_ms_played]
  ∧ time_table [toms_diner_played; same_ms_played] = [toms_diner_time]
  ∧ NoDup (Time.ts <$> time_table [toms_diner_played; same_ms_played])
  ∧ (∀ r, r ∈ [toms_diner_event; same_ms_event] →
       ∃ t, t ∈ time_table [toms_diner_played; same_ms_played]
            ∧ Time.ts t = Log.ts r)
  ∧ (∀ t, t ∈ time_table [toms_diner_played; same_ms_played] →
       ∃ r, r ∈ [toms_diner_event; same_ms_event] ∧ Time.ts t = Log.ts r).
Proof.
  split; [reflexivity|]. split; [reflexivity|].
  apply (time_table_key int_of_digits utc [toms_diner_event; same_ms_event]
           [toms_diner_played; same_ms_played]).
  reflexivity.
Defined.

Lemma songplays_rows_have_time_witness :
  songplays_plan int_of_digits utc [toms_diner_song] [toms_diner_event]
    = Ok [toms_diner_row]
  ∧ time_plan int_of_digits utc [toms_diner_event] = Ok [toms_diner_time]
  ∧ ∃ t, t ∈ [toms_diner_time]
         ∧ Time.start_time t = Songplays.start_time toms_diner_row
         ∧ Time.year t = Songplays.year toms_diner_row
         ∧ Time.month t = Songplays.month toms_diner_row.
Proof.
  split; [reflexivity|]. split; [reflexivity|].
  apply (songplays_rows_have_time int_of_digits utc [toms_diner_song]
           [toms_diner_event] [toms_diner_row] [toms_diner_time] toms_diner_row).
  - reflexivity.
  - reflexivity.
  - left.
Defined.

Lemma songplays_rows_have_dimensions_witness :
  (Songplays.song_id toms_diner_row ≠ None →
     ∃ x, x ∈ songs_table [toms_diner_song]
          ∧ Songs.song_id x = Songplays.song_id toms_diner_row)
  ∧ (Songplays.artist_id toms_diner_row ≠ None →
       ∃ x, x ∈ artists_table [toms_diner_song]
            ∧ Artists.artist_id x = Songplays.artist_id toms_diner_row)
  ∧ (Songplays.userId toms_diner_row ≠ None →
       ∃ x, x ∈ users_table (filter_NextSong [toms_diner_event])
            ∧ Users.userId x = Songplays.userId toms_diner_row
            ∧ Users.level x = Songplays.level toms_diner_row).
Proof.
  apply (songplays_rows_have_dimensions int_of_digits utc [toms_diner_song]
           [toms_diner_event] [toms_diner_row] toms_diner_row).
  - reflexivity.
  - left.
Defined.

(** Two songs with one title and artist name: two rows for the one play. *)
Lemma songplays_rows_per_event_witness :
  ∃ rows,
    songplays_plan int_of_digits utc [toms_diner_song; toms_diner_cover]
                   [toms_diner_event] = Ok rows
    ∧ length (filter (λ r, Songplays.start_time r
                           = Event.start_time toms_diner_played) rows)
      = length (filter (λ s, Song.title s = Log.song (Event.row toms_diner_played)
                             ∧ Log.song (Event.row toms_diner_played) ≠ None
                             ∧ Song.artist_name s
                               = Log.artist (Event.row toms_diner_played)
                             ∧ Log.artist (Event.row toms_diner_played) ≠ None)
                  [toms_diner_song; toms_diner_cover]).
Proof.
  apply (songplays_rows_per_event int_of_digits utc
           [toms_diner_song; toms_diner_cover] [toms_diner_event]
           [toms_diner_played] toms_diner_played).
  - reflexivity.
  - left.
Defined.

Example songplays_rows_per_event_count :
  length (filter (λ s, Song.title s = Log.song (Event.row toms_diner_played)
                       ∧ Log.song (Event.row toms_diner_played) ≠ None
                       ∧ Song.artist_name s = Log.artist (Event.row toms_diner_played)
                       ∧ Log.artist (Event.row toms_diner_played) ≠ None)
            [toms_diner_song; toms_diner_cover]) = 2.
Proof. reflexivity. Qed.

(** A log of page views only, one of them without a usable [ts]. *)
Lemma no_NextSong_empty_tables_witness :
  let log_df := [home_event;
                 Log.mk None None None None None None (Some "Logout") None None
                        (Some (TsString "n/a")) None None] in
  users_table (filter_NextSong log_df) = []
  ∧ time_plan int_of_digits utc log_df = Ok []
  ∧ ∀ song_df, songplays_plan int_of_digits utc song_df log_df = Ok [].
Proof.
  apply (no_NextSong_empty_tables int_of_digits utc); [discriminate|].
  intros r Hr. rewrite !elem_of_cons, elem_of_nil in Hr.
  destruct Hr as [->|[->|[]]]; discriminate.
Defined.

Lemma main_output_witness :
  let spark := session_of [toms_diner_song] [toms_diner_event] in
  let st' := (main int_of_digits utc spark ∅).2 in
  (main int_of_digits utc spark ∅).1 = Ok ()
  ∧ ∃ events kept,
      withColumns int_of_digits utc (filter_NextSong [toms_diner_event]) = Ok events
      ∧ deduplicated_by Event.start_time events kept
      ∧ holds st' (output_data +:+ "songs") ["year"; "artist_id"]
              (RSongs <$> songs_table [toms_diner_song])
      ∧ holds st' (output_data +:+ "artists") []
              (RArtists <$> artists_table [toms_diner_song])
      ∧ holds st' (output_data +:+ "users") []
              (RUsers <$> users_table (filter_NextSong [toms_diner_event]))
      ∧ holds st' (output_data +:+ "time") ["year"; "month"]
              (RTime <$> time_table events)
      ∧ holds st' (output_data +:+ "songplays") ["year"; "month"]
              (RSongplays <$> songplays_table [toms_diner_song] kept)
      ∧ ∀ q, (∀ t cols, (t, cols) ∈ spec_partition_policy →
                        q ≠ output_data +:+ t) →
             st' !! q = (∅ : Store) !! q.
Proof.
  split; [reflexivity|].
  apply (main_output int_of_digits utc
           (session_of [toms_diner_song] [toms_diner_event]) ∅).
  reflexivity.
Defined.

(** A second run, on another input, over the store of the example's run. *)
Lemma main_rerun_raises_witness :
  let first := main int_of_digits utc
                 (session_of [toms_diner_song] [toms_diner_event]) ∅ in
  first.1 = Ok ()
  ∧ ∃ e, main int_of_digits utc (session_of [toms_diner_cover] [same_ms_event]) first.2
         = (Raise e, first.2).
Proof.
  split; [reflexivity|].
  apply (main_rerun_raises int_of_digits utc
           (session_of [toms_diner_song] [toms_diner_event])
           (session_of [toms_diner_cover] [same_ms_event]) ∅).
  left. reflexivity.
Defined.

Lemma main_returns_only_if_witness :
  let spark := session_of [toms_diner_song] [toms_diner_event] in
  (main int_of_digits utc spark ∅).1 = Ok ()
  ∧ (∀ t cols, (t, cols) ∈ spec_partition_policy →
               (∅ : Store) !! (output_data +:+ t) = None)
  ∧ ∃ events,
      withColumns int_of_digits utc
        (filter_NextSong (read_json_logs spark (input_data +:+ "log-data/")))
      = Ok events.
Proof.
  split; [reflexivity|].
  apply (main_returns_only_if int_of_digits utc
           (session_of [toms_diner_song] [toms_diner_event]) ∅).
  reflexivity.
Defined.

Lemma main_partial_output_witness :
  let spark := session_of [toms_diner_song] [toms_diner_event; null_ts_event] in
  main int_of_digits utc spark ∅ =
    (Raise PythonException,
     <[output_data +:+ "users" :=
         mkDataset [] (RUsers <$> users_table
                         (filter_NextSong [toms_diner_event; null_ts_event]))]>
       (<[output_data +:+ "artists" :=
            mkDataset [] (RArtists <$> artists_table [toms_diner_song])]>
          (<[output_data +:+ "songs" :=
               mkDataset ["year"; "artist_id"]
                 (RSongs <$> songs_table [toms_diner_song])]> ∅))).
Proof.
  apply (main_partial_output int_of_digits utc
           (session_of [toms_diner_song] [toms_diner_event; null_ts_event]) ∅
           PythonException); try apply lookup_empty.
  reflexivity.
Defined.

Lemma songplays_partition_columns_witness :
  (Songplays.year toms_diner_row
   = Calendar.year (Songplays.start_time toms_diner_row `div` 86400000000)
   ∧ Songplays.month toms_diner_row
     = Calendar.month (Songplays.start_time toms_diner_row `div` 86400000000)
   ∧ 1 ≤ Songplays.month toms_diner_row ≤ 12)%Z.
Proof.
  apply (songplays_partition_columns int_of_digits utc [toms_diner_song]
           [toms_diner_event] [toms_diner_row] toms_diner_row).
  - reflexivity.
  - left.
Defined.

(** Two records with one [song_id] and two titles: two rows in Songs. *)
Example song_id_not_a_key :
  let retitled :=
    Song.mk None (Some "A1") None None None (Some "Suzanne Vega") (Some "S1")
            (Some "Tom's Diner (live)") None None in
  Songs.song_id <$> songs_table [toms_diner_song; retitled] = [Some "S1"; Some "S1"].
Proof. reflexivity. Qed.

(** Songs is free, Artists is there already: the job adds Songs and raises. *)
Lemma process_song_data_outcomes_witness :
  let spark := session_of [toms_diner_song] [toms_diner_event] in
  let st : Store := {[ output_data +:+ "artists" := mkDataset [] [] ]} in
  let run := process_song_data spark input_data output_data st in
  run.1 = Raise (AnalysisException (output_data +:+ "artists"))
  ∧ is_Some (st !! (output_data +:+ "artists"))
  ∧ adds st run.2 (output_data +:+ "songs") ["year"; "artist_id"]
         (RSongs <$> songs_table [toms_diner_song]).
Proof.
  split; [reflexivity|].
  apply (proj1 (proj2 (process_song_data_outcomes
                         (session_of [toms_diner_song] [toms_diner_event])
                         input_data output_data
                         {[ output_data +:+ "artists" := mkDataset [] [] ]}))).
  reflexivity.
Defined.

(** A play without [ts]: the job adds Users and raises in the UDF. *)
Lemma process_log_data_outcomes_witness :
  let spark := session_of [toms_diner_song] [toms_diner_event; null_ts_event] in
  let run := process_log_data int_of_digits utc spark input_data output_data ∅ in
  run.1 = Raise PythonException
  ∧ adds ∅ run.2 (output_data +:+ "users") []
         (RUsers <$> users_table (filter_NextSong [toms_diner_event; null_ts_event])).
Proof.
  split; [reflexivity|].
  apply (proj1 (proj2 (process_log_data_outcomes int_of_digits utc
                         (session_of [toms_diner_song]
                                     [toms_diner_event; null_ts_event])
                         input_data output_data ∅))).
  right. reflexivity.
Defined.

(** Two records that differ only in the sign of a zero duration: one row of
    Songs, with duration 0.0. *)
Example negative_zero_duration_one_row :
  let plus := Song.mk None (Some "A1") None None None (Some "Suzanne Vega")
                      (Some "S1") (Some "Tom's Diner") (Some 0%Z) None in
  let minus := Song.mk None (Some "A1") None None None (Some "Suzanne Vega")
                       (Some "S1") (Some "Tom's Diner")
                       (Some 0x8000000000000000%Z) None in
  songs_table [plus; minus]
  = [Songs.mk (Some "S1") (Some "Tom's Diner") (Some "A1") None (Some 0%Z)].
Proof. reflexivity. Qed.
